(** * Screenshot pipelines of justzone2: store screenshots and device mockups

    A shallow embedding of [website/images/create_appstore_screenshots.py]
    and [website/images/create_mockups.py].

    - Python numbers: [int] is [Z]; [float] is IEEE 754 binary64, taken from
      the Standard Library's executable specification [SpecFloat] at
      precision 53 and maximal exponent 1024.
    - Pillow images: a mode, a size and a pixel function; the resampling
      filter and the rounded-rectangle rasterizer are parameters.
    - The file system and the console: a finite map from paths to entries and
      the list of printed lines, threaded through a state-and-exception
      monad. *)

From Stdlib Require Import ZArith QArith Qpower Lia Lqa SpecFloat String Ascii.
From stdpp Require Import gmap strings pretty.

Local Open Scope Z_scope.

(** ** Python exceptions and results *)

Inductive exn :=
  | ZeroDivisionError
  | OverflowError
  | ValueError
  | FileNotFoundError
  | FileExistsError
  | IsADirectoryError
  | UnidentifiedImageError.

Inductive result (A : Type) :=
  | Ok (a : A)
  | Raise (e : exn).
Arguments Ok {A} a.
Arguments Raise {A} e.

Global Instance result_ret : MRet result := @Ok.
Global Instance result_bind : MBind result := fun A B f r =>
  match r with
  | Ok a => f a
  | Raise e => Raise e
  end.

(** ** Python floats *)

Abbreviation prec := 53%Z (only parsing).
Abbreviation emax := 1024%Z (only parsing).

(** [float(n)] as used when an [int] meets a [float] operand: round to
    nearest, ties to even; too large an integer raises. *)
Definition float_of_int (n : Z) : result spec_float :=
  match binary_normalize prec emax n 0 false with
  | S754_infinity _ => Raise OverflowError
  | x => Ok x
  end.

(** [a / b] on two [int]s: the correctly rounded quotient of the exact
    integers. *)
Definition int_truediv (a b : Z) : result spec_float :=
  match b with
  | 0 => Raise ZeroDivisionError
  | _ =>
    match a with
    | 0 => Ok (S754_zero (b <? 0))
    | _ =>
      match SFdiv prec emax (S754_finite (a <? 0) (Z.to_pos (Z.abs a)) 0)
                            (S754_finite (b <? 0) (Z.to_pos (Z.abs b)) 0) with
      | S754_infinity _ => Raise OverflowError
      | q => Ok q
      end
    end
  end.

(** [n * x] with [n : int] and [x : float]. *)
Definition int_mul_float (n : Z) (x : spec_float) : result spec_float :=
  f ← float_of_int n; Ok (SFmul prec emax f x).

(** [int(x)]: truncation toward zero. *)
Definition int_of_float (x : spec_float) : result Z :=
  match x with
  | S754_nan => Raise ValueError
  | S754_infinity _ => Raise OverflowError
  | S754_zero _ => Ok 0
  | S754_finite s m e =>
      Ok (cond_Zopp s (match e with
                       | Zneg k => Zpos m / 2 ^ Zpos k
                       | _ => Zpos m * 2 ^ e
                       end))
  end.

(** [x > n] with [x : float] and [n : int] (only used by the policy as the
    specification words it). *)
Definition float_gt_int (x : spec_float) (n : Z) : result bool :=
  f ← float_of_int n; Ok (SFltb f x).

(** The rational value of a float, for stating bounds. *)
Definition F2Q (m e : Z) : Q := (inject_Z m * 2 ^ e)%Q.

Definition SF2Q (x : spec_float) : Q :=
  match x with
  | S754_finite s m e => F2Q (cond_Zopp s (Zpos m)) e
  | _ => 0%Q
  end.

(** [1 + 2^-52]: rounding to nearest enlarges a normal value by at most this
    factor. *)
Definition round_up_factor : Q := (4503599627370497 # 4503599627370496)%Q.

(** [1 - 2^-52] *)
Definition round_down_factor : Q := (4503599627370495 # 4503599627370496)%Q.

(** The slack that three roundings can add or remove, as a denominator:
    [int(n * (k / d))] is the exact [k * n / d] up to the factor
    [1 +- 1 / rounding_slack] and the truncation. *)
Definition rounding_slack : Z := 10 ^ 15.

(** Positive normal floats with an exponent between [lo] and [hi]. *)
Definition normal_pos (lo hi : Z) (x : spec_float) : Prop :=
  exists m e, x = S754_finite false m e /\ 2 ^ 52 <= Zpos m < 2 ^ 53 /\ lo <= e <= hi.

(** The number of bits dropped by the first rounding step. *)
Definition shift_amount (m e : Z) : Z :=
  Z.max 0 (fexp prec emax (Zdigits2 m + e) - e).

(** ** Pillow images *)

Module PIL.

Inductive Mode := RGB | RGBA.

Global Instance Mode_eq_dec : EqDecision Mode.
Proof. solve_decision. Defined.

(** A pixel as Pillow stores it: four bytes; in mode [RGB] the fourth is
    padding and carries no transparency. *)
Definition Pixel : Type := Z * Z * Z * Z.

Definition alpha (p : Pixel) : Z := p.2.

Record Image := {
  mode : Mode;
  im_size : Z * Z;
  getpixel : Z -> Z -> Pixel;
}.

(** A single-band image (mode [L]). *)
Record Band := {
  band_size : Z * Z;
  band_pixel : Z -> Z -> Z;
}.

(** What the library computes pixel by pixel and this development does not
    look into: the Lanczos resampling filter (mode, source size, source
    pixels, target size, target position) and the coverage of
    [ImageDraw.rounded_rectangle] (the two corner points, the radius, the
    position). *)
Class Rasterizers := {
  lanczos : Mode -> Z * Z -> (Z -> Z -> Pixel) -> Z * Z -> Z -> Z -> Pixel;
  rounded_rectangle_covers : Z * Z -> Z * Z -> Z -> Z -> Z -> bool;
}.

(** [Image.new(mode, size, color)] *)
Definition new (m : Mode) (size : Z * Z) (color : Pixel) : Image :=
  {| mode := m; im_size := size; getpixel := fun _ _ => color |}.

(** [Image.new("L", size, color)] *)
Definition new_L (size : Z * Z) (color : Z) : Band :=
  {| band_size := size; band_pixel := fun _ _ => color |}.

(** [im.convert(mode)]: to [RGB] the alpha byte is dropped, to [RGBA] an
    image without alpha becomes opaque. *)
Definition convert (m : Mode) (im : Image) : Image :=
  if decide (mode im = m) then im
  else {| mode := m; im_size := im_size im;
          getpixel := fun i j => ((getpixel im i j).1, 255) |}.

(** [im.resize(size, Image.Resampling.LANCZOS)] *)
Definition resize `{Rasterizers} (im : Image) (size : Z * Z) : result Image :=
  if decide (im_size im = size) then Ok im
  else if (size.1 <? 1) || (size.2 <? 1) then Raise ValueError
  else Ok {| mode := mode im; im_size := size;
             getpixel := lanczos (mode im) (im_size im) (getpixel im) size |}.

(** The box with corner [(x, y)], width [w] and height [h]. *)
Definition in_box (x y w h i j : Z) : bool :=
  (x <=? i) && (i <? x + w) && (y <=? j) && (j <? y + h).

(** [im.paste(src, (x, y))]: the part of the box that lies on [im] is
    overwritten, the size of [im] stays. *)
Definition paste (im src : Image) (xy : Z * Z) : Image :=
  let src := convert (mode im) src in
  {| mode := mode im; im_size := im_size im;
     getpixel := fun i j =>
       if in_box xy.1 xy.2 (im_size src).1 (im_size src).2 i j
       then getpixel src (i - xy.1) (j - xy.2)
       else getpixel im i j |}.

(** [draw.rounded_rectangle([p0, p1], radius=radius, fill=fill)] on a band *)
Definition rounded_rectangle `{Rasterizers}
    (b : Band) (p0 p1 : Z * Z) (radius fill : Z) : Band :=
  {| band_size := band_size b;
     band_pixel := fun i j =>
       if rounded_rectangle_covers p0 p1 radius i j then fill
       else band_pixel b i j |}.

(** [im.putalpha(band)] *)
Definition putalpha (im : Image) (b : Band) : result Image :=
  if decide (band_size b = im_size im) then
    Ok {| mode := RGBA; im_size := im_size im;
          getpixel := fun i j =>
            ((getpixel (convert RGBA im) i j).1, band_pixel b i j) |}
  else Raise ValueError.

Definition SHIFTFORDIV255 (a : Z) : Z := Z.shiftr (Z.shiftr a 8 + a) 8.

(** One pixel of [ImagingAlphaComposite]: [src] over [dst], in the
    library's integer arithmetic with seven extra bits. *)
Definition composite_pixel (dst src : Pixel) : Pixel :=
  let '(dr, dg, db, da) := dst in
  let '(sr, sg, sb, sa) := src in
  if sa =? 0 then dst
  else
    let blend := da * (255 - sa) in
    let outa255 := sa * 255 + blend in
    let coef1 := sa * 255 * 255 * 128 / outa255 in
    let coef2 := 255 * 128 - coef1 in
    let channel s d :=
      Z.shiftr (SHIFTFORDIV255 (s * coef1 + d * coef2 + Z.shiftl 128 7)) 7 in
    (channel sr dr, channel sg dg, channel sb db, SHIFTFORDIV255 (outa255 + 128)).

(** [Image.alpha_composite(im1, im2)]: [im2] over [im1]. *)
Definition alpha_composite (im1 im2 : Image) : result Image :=
  if decide (mode im1 = RGBA /\ mode im2 = RGBA /\ im_size im1 = im_size im2) then
    Ok {| mode := RGBA; im_size := im_size im1;
          getpixel := fun i j => composite_pixel (getpixel im1 i j) (getpixel im2 i j) |}
  else Raise ValueError.

(** Bytes are between 0 and 255. *)
Definition byte_range (v : Z) : Prop := 0 <= v <= 255.
Definition pixel_range (p : Pixel) : Prop :=
  byte_range p.1.1.1 /\ byte_range p.1.1.2 /\ byte_range p.1.2 /\ byte_range p.2.

End PIL.

(** ** Files and console *)

Inductive entry :=
  | Directory
  | ImageFile (im : PIL.Image)
  | OtherFile.

Record World := {
  fs : gmap string entry;
  stdout : list string;
}.

(** Computations that read and change the world and may raise. *)
Definition M (A : Type) : Type := World -> result A * World.

Global Instance M_ret : MRet M := fun A a w => (Ok a, w).
Global Instance M_bind : MBind M := fun A B f c w =>
  match c w with
  | (Ok a, w') => f a w'
  | (Raise e, w') => (Raise e, w')
  end.

Definition lift {A} (r : result A) : M A := fun w => (r, w).

Definition print (line : string) : M unit := fun w =>
  (Ok tt, {| fs := fs w; stdout := stdout w ++ [line] |}).

(** The world after the report that an entry of the manifest was skipped. *)
Definition skipped (screenshot_name : string) (w : World) : World :=
  {| fs := fs w;
     stdout := stdout w ++ ["Skipping " +:+ screenshot_name +:+ " - not found"] |}.

(** A step that wrote the image at [output] and only added lines to the
    console. *)
Definition wrote (output : string) (w w' : World) : Prop :=
  (exists im, fs w' = <[output := ImageFile im]> (fs w)) /\
  exists lines, stdout w' = stdout w ++ lines.

(** The path holds an image. *)
Definition is_image (w : World) (path : string) : Prop :=
  exists im, fs w !! path = Some (ImageFile im).

(** A step that changed at most the file at [output], whatever its outcome. *)
Definition wrote_at_most (output : string) (w w' : World) : Prop :=
  fs w' = fs w \/ exists im, fs w' = <[output := ImageFile im]> (fs w).


(** [os.path.join] of a directory and a relative name. *)
Definition path_join (dir name : string) : string := dir +:+ "/" +:+ name.

(** [os.path.exists] *)
Definition path_exists (path : string) : M bool := fun w =>
  (Ok (bool_decide (is_Some (fs w !! path))), w).

(** [os.makedirs(path, exist_ok=True)] *)
Definition makedirs (path : string) : M unit := fun w =>
  match fs w !! path with
  | None => (Ok tt, {| fs := <[path := Directory]> (fs w); stdout := stdout w |})
  | Some Directory => (Ok tt, w)
  | Some _ => (Raise FileExistsError, w)
  end.

(** [Image.open(path)] followed by the decoding that [convert] triggers. *)
Definition Image_open (path : string) : M PIL.Image := fun w =>
  match fs w !! path with
  | None => (Raise FileNotFoundError, w)
  | Some Directory => (Raise IsADirectoryError, w)
  | Some OtherFile => (Raise UnidentifiedImageError, w)
  | Some (ImageFile im) => (Ok im, w)
  end.

(** [im.save(path, "PNG")] *)
Definition Image_save (im : PIL.Image) (path : string) : M unit := fun w =>
  match fs w !! path with
  | Some Directory => (Raise IsADirectoryError, w)
  | _ => (Ok tt, {| fs := <[path := ImageFile im]> (fs w); stdout := stdout w |})
  end.

(** Position of the last occurrence of a character. *)
Fixpoint rfind (c : ascii) (s : string) : option nat :=
  match s with
  | EmptyString => None
  | String a s' =>
      match rfind c s' with
      | Some k => Some (S k)
      | None => if Ascii.eqb a c then Some 0%nat else None
      end
  end.

Fixpoint all_dots (s : string) : bool :=
  match s with
  | EmptyString => true
  | String a s' => Ascii.eqb a "." && all_dots s'
  end.

(** [os.path.splitext]: the extension starts at the last dot of the last
    path component, leading dots of that component excepted. *)
Definition splitext (p : string) : string * string :=
  let start := match rfind "/" p with Some k => S k | None => 0%nat end in
  match rfind "." p with
  | None => (p, EmptyString)
  | Some d =>
      if (d <? start)%nat || all_dots (substring start (d - start) p)
      then (p, EmptyString)
      else (substring 0 d p, substring d (String.length p - d) p)
  end.

(** [for x in xs: body] *)
Fixpoint for_each {A} (xs : list A) (body : A -> M unit) : M unit :=
  match xs with
  | [] => mret tt
  | x :: xs' => body x ;; for_each xs' body
  end.

Definition newline : string := String "010" EmptyString.

(** ** create_appstore_screenshots.py *)

Module create_appstore_screenshots.
Section script.
Context `{PIL.Rasterizers}.

(** The directory of the script, [os.path.dirname(os.path.abspath(__file__))]. *)
Variable SCRIPT_DIR : string.

Definition APPSTORE_WIDTH : Z := 1284.
Definition APPSTORE_HEIGHT : Z := 2778.

Definition SCREENSHOTS : list string :=
  ["PreWorkout.PNG"; "Workout.PNG"; "Activity.PNG"; "Bubble.PNG"].

(** Lines 29 to 41 of [create_appstore_screenshot]: the size the screenshot
    is resized to. *)
Definition scaled_dimensions (orig_width orig_height : Z) : result (Z * Z) :=
  scale ← int_truediv APPSTORE_WIDTH orig_width;
  hs ← int_mul_float orig_height scale;
  new_height ← int_of_float hs;
  if new_height >? APPSTORE_HEIGHT then
    scale ← int_truediv APPSTORE_HEIGHT orig_height;
    ws ← int_mul_float orig_width scale;
    new_width ← int_of_float ws;
    Ok (new_width, APPSTORE_HEIGHT)
  else
    Ok (APPSTORE_WIDTH, new_height).

Definition black : PIL.Pixel := (0, 0, 0, 255).

(** Lines 47 to 52: the canvas and the centred paste. *)
Definition letterbox (img_resized : PIL.Image) (new_width new_height : Z) : PIL.Image :=
  let canvas := PIL.new PIL.RGB (APPSTORE_WIDTH, APPSTORE_HEIGHT) black in
  let x := (APPSTORE_WIDTH - new_width) / 2 in
  let y := (APPSTORE_HEIGHT - new_height) / 2 in
  PIL.paste canvas img_resized (x, y).

(** Lines 26 to 52: from the opened image to the canvas that is saved. *)
Definition render (opened : PIL.Image) : result PIL.Image :=
  let img := PIL.convert PIL.RGB opened in
  let '(orig_width, orig_height) := PIL.im_size img in
  '(new_width, new_height) ← scaled_dimensions orig_width orig_height;
  img_resized ← PIL.resize img (new_width, new_height);
  Ok (letterbox img_resized new_width new_height).

Definition create_appstore_screenshot (screenshot_path output_path : string) : M unit :=
  opened ← Image_open screenshot_path;
  canvas ← lift (render opened);
  Image_save canvas output_path ;;
  print ("  Saved: " +:+ output_path +:+ " (" +:+ pretty APPSTORE_WIDTH +:+ "x"
         +:+ pretty APPSTORE_HEIGHT +:+ ")").

Definition output_name (screenshot_name : string) : string :=
  let base_name := (splitext screenshot_name).1 in
  base_name +:+ "-appstore.png".

(** The body of the loop of [main]. *)
Definition main_body (output_dir screenshot_name : string) : M unit :=
  let screenshot_path := path_join SCRIPT_DIR screenshot_name in
  found ← path_exists screenshot_path;
  if negb found then
    print ("Skipping " +:+ screenshot_name +:+ " - not found")
  else
    let output_path := path_join output_dir (output_name screenshot_name) in
    print (newline +:+ "Processing: " +:+ screenshot_name) ;;
    create_appstore_screenshot screenshot_path output_path.

Definition main : M unit :=
  print "Creating App Store screenshots..." ;;
  print ("Target size: " +:+ pretty APPSTORE_WIDTH +:+ " x " +:+ pretty APPSTORE_HEIGHT) ;;
  let output_dir := path_join SCRIPT_DIR "appstore" in
  makedirs output_dir ;;
  for_each SCREENSHOTS (main_body output_dir) ;;
  print (newline +:+ "Done! Screenshots saved to: " +:+ output_dir).

(** The scaling policy in the words of the specification: scale by [W / w];
    if the height [h * s] exceeds [H], scale by [H / h] instead; both new
    dimensions are the truncations of [w * s] and [h * s]. *)
Definition policy_as_specified (w h : Z) : result (Z * Z) :=
  s ← int_truediv APPSTORE_WIDTH w;
  hs ← int_mul_float h s;
  exceeds ← float_gt_int hs APPSTORE_HEIGHT;
  s ← (if exceeds : bool then int_truediv APPSTORE_HEIGHT h else Ok s);
  ws ← int_mul_float w s;
  hs ← int_mul_float h s;
  new_w ← int_of_float ws;
  new_h ← int_of_float hs;
  Ok (new_w, new_h).

End script.
End create_appstore_screenshots.

(** ** create_mockups.py *)

Module create_mockups.
Section script.
Context `{PIL.Rasterizers}.

Variable SCRIPT_DIR : string.

Definition BEZEL_PATH : string := path_join SCRIPT_DIR "iPhone 16 - Black - Portrait.png".

Definition SCREENSHOTS : list string :=
  ["PreWorkout.PNG"; "Workout.PNG"; "Activity.PNG"; "Bubble.PNG"; "Splash.PNG"].

Definition SCREEN_LEFT : Z := 90.
Definition SCREEN_TOP : Z := 90.
Definition SCREEN_RIGHT : Z := 1268.
Definition SCREEN_BOTTOM : Z := 2645.

Definition CORNER_RADIUS : Z := 110.

Definition add_rounded_corners (img : PIL.Image) (radius : Z) : result PIL.Image :=
  let mask := PIL.new_L (PIL.im_size img) 0 in
  let mask := PIL.rounded_rectangle mask (0, 0) (PIL.im_size img) radius 255 in
  let result := img in
  PIL.putalpha result mask.

Definition transparent : PIL.Pixel := (0, 0, 0, 0).

(** The canvas onto which the bezel is laid (lines 56 to 74). *)
Definition screen_canvas (bezel screenshot : PIL.Image) : result PIL.Image :=
  let '(left_, top_, right_, bottom_) :=
    (SCREEN_LEFT, SCREEN_TOP, SCREEN_RIGHT, SCREEN_BOTTOM) in
  let screen_width := right_ - left_ in
  let screen_height := bottom_ - top_ in
  screenshot_resized ← PIL.resize screenshot (screen_width, screen_height);
  screenshot_resized ← add_rounded_corners screenshot_resized CORNER_RADIUS;
  let result := PIL.new PIL.RGBA (PIL.im_size bezel) transparent in
  Ok (PIL.paste result screenshot_resized (left_, top_)).

(** Lines 56 to 77: from the two converted images to the image that is saved. *)
Definition composite (bezel screenshot : PIL.Image) : result PIL.Image :=
  result ← screen_canvas bezel screenshot;
  PIL.alpha_composite result bezel.

Definition create_mockup (bezel_path screenshot_path output_path : string) : M unit :=
  bezel ← Image_open bezel_path;
  let bezel := PIL.convert PIL.RGBA bezel in
  screenshot ← Image_open screenshot_path;
  let screenshot := PIL.convert PIL.RGBA screenshot in
  print ("  Screen area: (" +:+ pretty SCREEN_LEFT +:+ ", " +:+ pretty SCREEN_TOP
         +:+ ") to (" +:+ pretty SCREEN_RIGHT +:+ ", " +:+ pretty SCREEN_BOTTOM +:+ ")") ;;
  print ("  Screen size: " +:+ pretty (SCREEN_RIGHT - SCREEN_LEFT) +:+ " x "
         +:+ pretty (SCREEN_BOTTOM - SCREEN_TOP)) ;;
  result ← lift (composite bezel screenshot);
  Image_save result output_path ;;
  print ("  Saved: " +:+ output_path).

Definition output_name (screenshot_name : string) : string :=
  let base_name := (splitext screenshot_name).1 in
  base_name +:+ "-mockup.png".

(** The body of the loop of [main]. *)
Definition main_body (screenshot_name : string) : M unit :=
  let screenshot_path := path_join SCRIPT_DIR screenshot_name in
  found ← path_exists screenshot_path;
  if negb found then
    print ("Skipping " +:+ screenshot_name +:+ " - not found")
  else
    let output_path := path_join SCRIPT_DIR (output_name screenshot_name) in
    print (newline +:+ "Processing: " +:+ screenshot_name) ;;
    create_mockup BEZEL_PATH screenshot_path output_path.

Definition main : M unit :=
  print "Creating iPhone mockups..." ;;
  print ("Bezel: " +:+ BEZEL_PATH) ;;
  found ← path_exists BEZEL_PATH;
  if negb found then
    print ("Error: Bezel not found at " +:+ BEZEL_PATH)
  else
    for_each SCREENSHOTS main_body ;;
    print (newline +:+ "Done!").

End script.
End create_mockups.

(** A resampler and a rasterizer to run the pipelines on concrete images:
    nearest neighbour, and the plain rectangle. *)
Definition sample_rasterizers : PIL.Rasterizers := {|
  PIL.lanczos := fun _ size px size' i j =>
    px (i * size.1 / size'.1) (j * size.2 / size'.2);
  PIL.rounded_rectangle_covers := fun p0 p1 _ i j =>
    (p0.1 <=? i) && (i <=? p1.1) && (p0.2 <=? j) && (j <=? p1.2);
|}.

(** A source image and a world in which only one entry of the manifests
    exists. *)
Definition sample_source : PIL.Image := PIL.new PIL.RGBA (1000, 1000) (10, 20, 30, 40).

Definition sample_world : World :=
  {| fs := {[ "/site/Workout.PNG" := ImageFile sample_source ]}; stdout := [] |}.

(** The same world with a fully transparent frame of the size of the bezel. *)
Definition sample_world_with_bezel : World :=
  {| fs := {[ "/site/Workout.PNG" := ImageFile sample_source;
              "/site/iPhone 16 - Black - Portrait.png" :=
                ImageFile (PIL.new PIL.RGBA (1359, 2736) (0, 0, 0, 0)) ]};
     stdout := [] |}.


(** A world in which the first entry of the manifests is not an image. *)
Definition sample_world_undecodable : World :=
  {| fs := {[ "/site/PreWorkout.PNG" := OtherFile;
              "/site/iPhone 16 - Black - Portrait.png" :=
                ImageFile (PIL.new PIL.RGBA (1359, 2736) (0, 0, 0, 0)) ]};
     stdout := [] |}.

(** * Properties *)

(** ** Rounding in binary64

    What the claims need from a float operation is an upper bound on its
    result; it is proved on [SpecFloat]'s rounding function for the range of
    positive normal numbers. *)

Section rounding.

(** [Zdigits2] counts binary digits: it is [Z.log2] plus one. *)
Lemma digits2_pos_size p : digits2_pos p = Pos.size p.
Proof. induction p; simpl; congruence. Qed.

Lemma Zdigits2_log2 m : 0 < m -> Zdigits2 m = Z.log2 m + 1.
Proof.
  destruct m as [|p|p]; try lia. intros _. simpl.
  rewrite digits2_pos_size. destruct p; simpl; lia.
Qed.

Lemma Zdigits2_unique m k : 0 < k -> 2 ^ (k - 1) <= m < 2 ^ k -> Zdigits2 m = k.
Proof.
  intros Hk Hm. assert (0 < m) by (pose proof (Z.pow_pos_nonneg 2 (k - 1)); lia).
  rewrite Zdigits2_log2 by lia.
  rewrite (Z.log2_unique m (k - 1)); [lia | lia |].
  replace (Z.succ (k - 1)) with k by lia. exact Hm.
Qed.

Lemma Zdigits2_bounds m : 0 < m -> 2 ^ (Zdigits2 m - 1) <= m < 2 ^ Zdigits2 m.
Proof.
  intros Hm. rewrite Zdigits2_log2 by lia.
  replace (Z.log2 m + 1 - 1) with (Z.log2 m) by lia.
  rewrite Z.add_1_r. by apply Z.log2_spec.
Qed.

(** Shifting right halves the mantissa, whatever the round and sticky bits. *)
Lemma shr_1_m mrs : 0 <= shr_m mrs -> shr_m (shr_1 mrs) = shr_m mrs / 2.
Proof.
  destruct mrs as [m r s]. cbn [shr_m]. intros Hm.
  destruct m as [|[p|p|]|p]; cbn [shr_1 shr_m]; try lia; try reflexivity.
  - apply Z.div_unique with 1; lia.
  - apply Z.div_unique with 0; lia.
Qed.

Lemma shr_1_nonneg mrs : 0 <= shr_m mrs -> 0 <= shr_m (shr_1 mrs).
Proof. intros H. rewrite shr_1_m by done. by apply Z.div_pos. Qed.

Lemma iter_pos_shr_m p : forall mrs,
  0 <= shr_m mrs -> shr_m (SpecFloat.iter_pos shr_1 p mrs) = shr_m mrs / 2 ^ Zpos p.
Proof.
  induction p as [p IH|p IH|]; intros mrs Hm; simpl SpecFloat.iter_pos.
  - assert (0 < 2 ^ Z.pos p) by (apply Z.pow_pos_nonneg; lia).
    assert (H1 : 0 <= shr_m (shr_1 mrs)) by (by apply shr_1_nonneg).
    assert (H2 : 0 <= shr_m (SpecFloat.iter_pos shr_1 p (shr_1 mrs))).
    { rewrite IH by done. apply Z.div_pos; lia. }
    rewrite (IH _ H2), (IH _ H1), shr_1_m by done.
    rewrite !Z.div_div by lia. f_equal.
    replace (Z.pos p~1) with (1 + Z.pos p + Z.pos p) by lia.
    rewrite !Z.pow_add_r by lia. lia.
  - assert (0 < 2 ^ Z.pos p) by (apply Z.pow_pos_nonneg; lia).
    assert (H2 : 0 <= shr_m (SpecFloat.iter_pos shr_1 p mrs)).
    { rewrite IH by done. apply Z.div_pos; lia. }
    rewrite (IH _ H2), (IH _ Hm).
    rewrite !Z.div_div by lia. f_equal.
    replace (Z.pos p~0) with (Z.pos p + Z.pos p) by lia.
    rewrite !Z.pow_add_r by lia. lia.
  - rewrite shr_1_m by done. by rewrite Z.pow_1_r.
Qed.

Lemma shr_record_of_loc_m m l : shr_m (shr_record_of_loc m l) = m.
Proof. by destruct l as [|[]]. Qed.

(** The first rounding step divides by [2 ^ shift_amount] and raises the
    exponent by as much. *)
Lemma shr_fexp_spec m e l :
  0 <= m ->
  shr_m (fst (shr_fexp prec emax m e l)) = m / 2 ^ shift_amount m e /\
  snd (shr_fexp prec emax m e l) = e + shift_amount m e.
Proof.
  intros Hm. unfold shr_fexp, shr, shift_amount.
  destruct (fexp prec emax (Zdigits2 m + e) - e) as [|p|p] eqn:Hn; simpl.
  - rewrite shr_record_of_loc_m, Z.div_1_r. lia.
  - rewrite iter_pos_shr_m by (by rewrite shr_record_of_loc_m).
    rewrite shr_record_of_loc_m. split; [done|lia].
  - rewrite shr_record_of_loc_m, Z.div_1_r. lia.
Qed.

(** Rounding to nearest keeps the truncated mantissa or adds one to it. *)
Lemma round_nearest_even_range m l :
  m <= round_nearest_even m l <= m + 1.
Proof. destruct l as [|[]]; simpl; try lia. destruct (Z.even m); lia. Qed.

(** The result of [binary_round_aux] in terms of integer division only:
    the mantissa is divided by a power of two, moved up by at most one, and
    divided again when the move added a digit. *)
Lemma binary_round_aux_shape mx ex lx :
  0 < mx ->
  exists m1,
    mx / 2 ^ shift_amount mx ex <= m1 <= mx / 2 ^ shift_amount mx ex + 1 /\
    let e1 := ex + shift_amount mx ex in
    binary_round_aux prec emax false mx ex lx =
      match m1 / 2 ^ shift_amount m1 e1 with
      | 0 => S754_zero false
      | Zpos m => if e1 + shift_amount m1 e1 <=? emax - prec
                  then S754_finite false m (e1 + shift_amount m1 e1)
                  else S754_infinity false
      | Zneg _ => S754_nan
      end.
Proof.
  intros Hmx. unfold binary_round_aux.
  destruct (shr_fexp_spec mx ex lx) as [Hm He]; [lia|].
  destruct (shr_fexp prec emax mx ex lx) as [mrs' e'] eqn:E1. simpl in Hm, He.
  set (m1 := round_nearest_even (shr_m mrs') (loc_of_shr_record mrs')).
  exists m1. split.
  { rewrite <- Hm. apply round_nearest_even_range. }
  assert (0 <= m1).
  { pose proof (round_nearest_even_range (shr_m mrs') (loc_of_shr_record mrs')) as Hr.
    assert (0 <= shr_m mrs').
    { rewrite Hm. apply Z.div_pos; [lia|]. apply Z.pow_pos_nonneg; unfold shift_amount; lia. }
    unfold m1. lia. }
  destruct (shr_fexp_spec m1 e' loc_Exact) as [Hm' He']; [done|].
  destruct (shr_fexp prec emax m1 e' loc_Exact) as [mrs'' e''] eqn:E2. simpl in Hm', He'.
  subst e' e''. simpl. by rewrite Hm'.
Qed.

Lemma fexp_normal e : 3 - emax - prec <= e - prec -> fexp prec emax e = e - prec.
Proof. unfold fexp, emin. lia. Qed.

Lemma pow2_pos n : 0 <= n -> 0 < 2 ^ n.
Proof. intros. apply Z.pow_pos_nonneg; lia. Qed.

Lemma pow2_lt_inv a b : 2 ^ a < 2 ^ b -> a < b.
Proof.
  intros H. destruct (Z_lt_le_dec b 0) as [Hb|Hb].
  - rewrite (Z.pow_neg_r 2 b) in H by lia.
    pose proof (Z.pow_nonneg 2 a). lia.
  - apply (Z.pow_lt_mono_r_iff 2); lia.
Qed.

(** In the normal range (at least [prec] digits before rounding, no
    underflow, no overflow) rounding yields a positive finite float with a
    53-bit mantissa whose value exceeds the rounded value by a factor of at
    most [1 + 2^-52]. *)
Lemma binary_round_aux_normal mx ex lx :
  2 ^ 52 <= mx -> -1074 <= ex -> Zdigits2 mx + ex <= 1023 ->
  exists m e,
    binary_round_aux prec emax false mx ex lx = S754_finite false m e /\
    2 ^ 52 <= Zpos m < 2 ^ 53 /\
    Zdigits2 mx + ex - 53 <= e <= Zdigits2 mx + ex - 52 /\
    ex <= e /\
    Zpos m * 2 ^ (e - ex) * 2 ^ 52 <= mx * (2 ^ 52 + 1).
Proof.
  intros Hmx Hex Hov.
  assert (Hpos : 0 < mx) by lia.
  pose proof (Zdigits2_bounds mx Hpos) as Hd.
  set (d := Zdigits2 mx) in *.
  assert (53 <= d).
  { assert (52 < d); [|lia]. apply pow2_lt_inv; lia. }
  destruct (binary_round_aux_shape mx ex lx Hpos) as (m1 & Hm1 & Heq).
  assert (Hn : shift_amount mx ex = d - 53).
  { unfold shift_amount. fold d. rewrite fexp_normal by lia. lia. }
  rewrite Hn in *. cbn zeta in Heq.
  set (q := mx / 2 ^ (d - 53)) in *.
  assert (Hp : 0 < 2 ^ (d - 53)) by (apply pow2_pos; lia).
  assert (Hq : 2 ^ 52 <= q < 2 ^ 53).
  { split.
    - apply Z.div_le_lower_bound; [done|].
      rewrite <- Z.pow_add_r by lia. replace (d - 53 + 52) with (d - 1) by lia. apply Hd.
    - apply Z.div_lt_upper_bound; [done|].
      rewrite <- Z.pow_add_r by lia. replace (d - 53 + 53) with d by lia. apply Hd. }
  assert (Hqm : q * 2 ^ (d - 53) <= mx).
  { unfold q. rewrite Z.mul_comm. apply Z.mul_div_le. done. }
  destruct (Z_lt_le_dec m1 (2 ^ 53)) as [Hlt|Hge].
  - (* the rounded mantissa still has 53 digits *)
    assert (Hd1 : Zdigits2 m1 = 53) by (apply Zdigits2_unique; lia).
    assert (Hn1 : shift_amount m1 (ex + (d - 53)) = 0).
    { unfold shift_amount. rewrite Hd1, fexp_normal by lia. lia. }
    rewrite Hn1, Z.pow_0_r, Z.div_1_r, Z.add_0_r in Heq.
    destruct m1 as [|m|m]; try lia.
    exists m, (ex + (d - 53)). rewrite Heq.
    replace (ex + (d - 53) <=? 1024 - 53) with true by (symmetry; apply Z.leb_le; lia).
    repeat split; try lia.
    replace (ex + (d - 53) - ex) with (d - 53) by lia. nia.
  - (* the mantissa was moved up to 2^53 and loses its last digit *)
    assert (m1 = 2 ^ 53) by lia. subst m1.
    assert (Hn1 : shift_amount (2 ^ 53) (ex + (d - 53)) = 1).
    { unfold shift_amount. replace (Zdigits2 (2 ^ 53)) with 54 by reflexivity.
      rewrite fexp_normal by lia. lia. }
    rewrite Hn1 in Heq. change (2 ^ 53 / 2 ^ 1) with (Zpos (2 ^ 52)) in Heq.
    exists (2 ^ 52)%positive, (ex + (d - 53) + 1). rewrite Heq.
    replace (ex + (d - 53) + 1 <=? 1024 - 53) with true by (symmetry; apply Z.leb_le; lia).
    repeat split; try lia.
    replace (ex + (d - 53) + 1 - ex) with ((d - 53) + 1) by lia.
    rewrite Z.pow_add_r by lia. change (Z.pos (2 ^ 52)) with (2 ^ 52). nia.
Qed.

(** The rational value [F2Q m e = m * 2^e]. *)
Lemma Qpow2_pos e : (0 < 2 ^ e)%Q.
Proof. apply Qpower_0_lt. reflexivity. Qed.

Lemma F2Q_shift m e k : 0 <= k -> (F2Q m (e + k) == F2Q (m * 2 ^ k) e)%Q.
Proof.
  intros Hk. unfold F2Q.
  rewrite Qpower_plus by discriminate.
  rewrite inject_Z_mult, (Zpower_Qpower 2 k) by done.
  change (inject_Z 2) with 2%Q.
  generalize (2 ^ e)%Q (2 ^ k)%Q (inject_Z m). intros; ring.
Qed.

Lemma F2Q_le_mono m m' e : m <= m' -> (F2Q m e <= F2Q m' e)%Q.
Proof.
  intros H. unfold F2Q. apply Qmult_le_compat_r.
  - by rewrite <- Zle_Qle.
  - apply Qlt_le_weak, Qpow2_pos.
Qed.

Lemma F2Q_scale m c e : (F2Q (m * c) e == F2Q m e * inject_Z c)%Q.
Proof.
  unfold F2Q. rewrite inject_Z_mult.
  generalize (2 ^ e)%Q (inject_Z m) (inject_Z c). intros; ring.
Qed.

Lemma F2Q_mul m1 e1 m2 e2 : (F2Q m1 e1 * F2Q m2 e2 == F2Q (m1 * m2) (e1 + e2))%Q.
Proof.
  unfold F2Q. rewrite Qpower_plus by discriminate. rewrite inject_Z_mult.
  generalize (2 ^ e1)%Q (2 ^ e2)%Q (inject_Z m1) (inject_Z m2). intros; ring.
Qed.

Lemma F2Q_0 m : (F2Q m 0 == inject_Z m)%Q.
Proof. unfold F2Q. simpl. ring. Qed.

(** The integer bound of [binary_round_aux_normal], read on values. *)
Lemma F2Q_round_le m e mx ex :
  ex <= e ->
  m * 2 ^ (e - ex) * 2 ^ 52 <= mx * (2 ^ 52 + 1) ->
  (F2Q m e <= F2Q mx ex * round_up_factor)%Q.
Proof.
  intros He H.
  replace e with (ex + (e - ex)) at 1 by lia.
  rewrite F2Q_shift by lia.
  apply (F2Q_le_mono _ _ ex) in H.
  rewrite !F2Q_scale in H.
  change (inject_Z (2 ^ 52)) with (4503599627370496 # 1)%Q in H.
  change (inject_Z (2 ^ 52 + 1)) with (4503599627370497 # 1)%Q in H.
  unfold round_up_factor.
  rewrite F2Q_scale.
  set (X := F2Q m ex) in *. set (Y := F2Q mx ex) in *.
  set (P := inject_Z (2 ^ (e - ex))) in *. lra.
Qed.

Lemma iter_xO_pow2 p k : Zpos (Pos.iter xO p k) = Zpos p * 2 ^ Zpos k.
Proof.
  induction k as [|k IH] using Pos.peano_ind.
  - simpl. lia.
  - rewrite Pos.iter_succ, Pos2Z.inj_xO, IH, Pos2Z.inj_succ, Z.pow_succ_r by lia. lia.
Qed.

(** [float(n)] for [0 < n < 2^53]: a positive normal float, at most
    [n * (1 + 2^-52)]. *)
Lemma float_of_int_normal n :
  0 < n < 2 ^ 53 ->
  exists x, float_of_int n = Ok x /\ normal_pos (-52) 1 x /\
            (SF2Q x <= inject_Z n * round_up_factor)%Q.
Proof.
  intros Hn. destruct n as [|p|p]; try lia.
  unfold float_of_int, binary_normalize, binary_round.
  pose proof (Zdigits2_bounds (Zpos p) ltac:(lia)) as Hd.
  change (Zdigits2 (Zpos p)) with (Zpos (digits2_pos p)) in Hd.
  set (d := Zpos (digits2_pos p)) in *.
  assert (1 <= d <= 53).
  { split; [unfold d; lia|]. assert (d - 1 < 53); [|lia]. apply pow2_lt_inv; lia. }
  rewrite Z.add_0_r, fexp_normal by lia.
  assert (Hal : exists mz ez, shl_align p 0 (d - 53) = (mz, ez) /\
            Zpos mz = Zpos p * 2 ^ (53 - d) /\ ez = d - 53).
  { unfold shl_align. destruct (d - 53 - 0) as [|k|k] eqn:Hk; try lia.
    - eexists _, _. split; [done|]. replace (53 - d) with 0 by lia. lia.
    - eexists _, _. split; [done|]. rewrite iter_xO_pow2.
      replace (53 - d) with (Zpos k) by lia. lia. }
  destruct Hal as (mz & ez & -> & Hmz & ->).
  assert (Hb : 2 ^ 52 <= Zpos mz < 2 ^ 53).
  { rewrite Hmz.
    assert (0 < 2 ^ (53 - d)) by (apply pow2_pos; lia).
    assert (E1 : 2 ^ 52 = 2 ^ (d - 1) * 2 ^ (53 - d)).
    { rewrite <- Z.pow_add_r by lia. f_equal. lia. }
    assert (E2 : 2 ^ 53 = 2 ^ d * 2 ^ (53 - d)).
    { rewrite <- Z.pow_add_r by lia. f_equal. lia. }
    rewrite E1, E2. split.
    - apply Z.mul_le_mono_nonneg_r; lia.
    - apply Z.mul_lt_mono_pos_r; lia. }
  assert (Hdz : Zdigits2 (Zpos mz) = 53) by (apply Zdigits2_unique; lia).
  destruct (binary_round_aux_normal (Zpos mz) (d - 53) loc_Exact)
    as (m & e & -> & Hm & He & Hle & Hv); [lia|lia|rewrite Hdz; lia|].
  rewrite Hdz in He.
  eexists. split; [done|]. split.
  - exists m, e. repeat split; lia.
  - simpl. eapply Qle_trans; [apply (F2Q_round_le _ _ _ _ Hle Hv)|].
    apply Qmult_le_compat_r; [|done].
    rewrite Hmz. replace (d - 53) with (- (53 - d)) by lia.
    rewrite <- (F2Q_shift _ _ (53 - d)) by lia.
    replace (- (53 - d) + (53 - d)) with 0 by lia. rewrite F2Q_0. apply Qle_refl.
Qed.

Lemma F2Q_lt_mono m m' e : m < m' -> (F2Q m e < F2Q m' e)%Q.
Proof.
  intros H. unfold F2Q. apply Qmult_lt_compat_r.
  - apply Qpow2_pos.
  - by rewrite <- Zlt_Qlt.
Qed.

Lemma F2Q_unshift m k : 0 <= k -> (F2Q (m * 2 ^ k) (- k) == inject_Z m)%Q.
Proof.
  intros Hk. rewrite <- F2Q_shift by done.
  replace (- k + k) with 0 by lia. apply F2Q_0.
Qed.

Lemma Zdigits2_le m k : 0 < m < 2 ^ k -> Zdigits2 m <= k.
Proof.
  intros Hm. pose proof (Zdigits2_bounds m ltac:(lia)) as Hd.
  assert (Zdigits2 m - 1 < k); [|lia]. apply pow2_lt_inv; lia.
Qed.

Lemma Zdigits2_pos m : 0 < m -> 1 <= Zdigits2 m.
Proof. destruct m; simpl; lia. Qed.

(** The quotient digits that [SFdiv] computes for two positive integers
    below [2^53]: 53 or 54 bits, never more than the exact quotient. *)
Lemma SFdiv_core_binary_ints a b :
  0 < a < 2 ^ 53 -> 0 < b < 2 ^ 53 ->
  exists q l,
    SFdiv_core_binary prec emax a 0 b 0 = (q, Zdigits2 a - Zdigits2 b - 53, l) /\
    2 ^ 52 <= q < 2 ^ 54 /\
    q * b <= a * 2 ^ (53 + Zdigits2 b - Zdigits2 a).
Proof.
  intros Ha Hb. unfold SFdiv_core_binary.
  pose proof (Zdigits2_bounds a ltac:(lia)) as Hda.
  pose proof (Zdigits2_bounds b ltac:(lia)) as Hdb.
  pose proof (Zdigits2_le a 53 Ha). pose proof (Zdigits2_le b 53 Hb).
  pose proof (Zdigits2_pos a ltac:(lia)). pose proof (Zdigits2_pos b ltac:(lia)).
  set (d1 := Zdigits2 a) in *. set (d2 := Zdigits2 b) in *.
  replace (Z.min (fexp prec emax (d1 + 0 - (d2 + 0))) (0 - 0)) with (d1 - d2 - 53)
    by (rewrite fexp_normal; lia).
  destruct (0 - 0 - (d1 - d2 - 53)) as [|k|k] eqn:Hs; try lia.
  rewrite Z.shiftl_mul_pow2 by lia.
  replace (53 + d2 - d1) with (Zpos k) by lia.
  assert (Hk : 0 < 2 ^ Zpos k) by (apply pow2_pos; lia).
  assert (E1 : 2 ^ (d1 - 1) * 2 ^ Zpos k = 2 ^ 52 * 2 ^ d2).
  { rewrite <- !Z.pow_add_r by lia. f_equal. lia. }
  assert (E2 : 2 ^ d1 * 2 ^ Zpos k = 2 ^ 54 * 2 ^ (d2 - 1)).
  { rewrite <- !Z.pow_add_r by lia. f_equal. lia. }
  pose proof (Z_div_mod (a * 2 ^ Zpos k) b ltac:(lia)) as Hdiv.
  destruct (Z.div_eucl (a * 2 ^ Zpos k) b) as [q r].
  destruct Hdiv as [Hqr Hr].
  exists q, (new_location b r). split; [done|].
  assert (L1 : 2 ^ 52 * 2 ^ d2 <= a * 2 ^ Zpos k).
  { rewrite <- E1. apply Z.mul_le_mono_nonneg_r; lia. }
  assert (L2 : a * 2 ^ Zpos k < 2 ^ 54 * 2 ^ (d2 - 1)).
  { rewrite <- E2. apply Z.mul_lt_mono_pos_r; lia. }
  repeat split; nia.
Qed.

(** [a / b] for positive integers below [2^53]: a positive normal float,
    at most [(a / b) * (1 + 2^-52)]. *)
Lemma int_truediv_normal a b :
  0 < a < 2 ^ 53 -> 0 < b < 2 ^ 53 ->
  exists x, int_truediv a b = Ok x /\ normal_pos (-105) 1 x /\
            (SF2Q x * inject_Z b <= inject_Z a * round_up_factor)%Q.
Proof.
  intros Ha Hb.
  destruct (SFdiv_core_binary_ints a b Ha Hb) as (q & l & Hcore & Hq & Hqb).
  pose proof (Zdigits2_le a 53 Ha). pose proof (Zdigits2_le b 53 Hb).
  pose proof (Zdigits2_pos a ltac:(lia)). pose proof (Zdigits2_pos b ltac:(lia)).
  pose proof (Zdigits2_le q 54 ltac:(lia)) as Hdq.
  destruct a as [|pa|pa]; try lia. destruct b as [|pb|pb]; try lia.
  unfold int_truediv, SFdiv.
  change (Z.to_pos (Z.abs (Z.pos pa))) with pa.
  change (Z.to_pos (Z.abs (Z.pos pb))) with pb.
  change (Z.pos pa <? 0) with false. change (Z.pos pb <? 0) with false.
  cbn [xorb]. rewrite Hcore.
  set (e' := Zdigits2 (Zpos pa) - Zdigits2 (Zpos pb) - 53) in *.
  destruct (binary_round_aux_normal q e' l) as (m & e & -> & Hm & He & Hle & Hv);
    [lia|lia|lia|].
  eexists. split; [done|]. split.
  - exists m, e. repeat split; lia.
  - simpl.
    pose proof (F2Q_round_le _ _ _ _ Hle Hv) as Hr.
    assert (Hx : (F2Q q e' * inject_Z (Zpos pb) <= inject_Z (Zpos pa))%Q).
    { rewrite <- F2Q_scale.
      eapply Qle_trans; [apply F2Q_le_mono, Hqb|].
      replace e' with (- (53 + Zdigits2 (Zpos pb) - Zdigits2 (Zpos pa))) by (unfold e'; lia).
      rewrite F2Q_unshift by lia. apply Qle_refl. }
    set (X := F2Q (Z.pos m) e) in *. set (Y := F2Q q e') in *.
    assert (0 < inject_Z (Zpos pb))%Q by (by rewrite <- (Zlt_Qlt 0)).
    unfold round_up_factor in *.
    set (B := inject_Z (Zpos pb)) in *. set (A := inject_Z (Zpos pa)) in *.
    nra.
Qed.

(** The product of two positive normal floats of moderate exponents: a
    positive normal float, at most the exact product times [1 + 2^-52]. *)
Lemma SFmul_normal lo1 hi1 lo2 hi2 x y :
  normal_pos lo1 hi1 x -> normal_pos lo2 hi2 y ->
  -1074 <= lo1 + lo2 -> hi1 + hi2 <= 900 ->
  exists z, SFmul prec emax x y = z /\
            normal_pos (lo1 + lo2 + 52) (hi1 + hi2 + 54) z /\
            (SF2Q z <= SF2Q x * SF2Q y * round_up_factor)%Q.
Proof.
  intros (m1 & e1 & -> & Hm1 & He1) (m2 & e2 & -> & Hm2 & He2) Hlo Hhi.
  cbn [SFmul xorb].
  assert (Hp : 2 ^ 104 <= Zpos (m1 * m2) < 2 ^ 106).
  { rewrite Pos2Z.inj_mul.
    change (2 ^ 104) with (2 ^ 52 * 2 ^ 52). change (2 ^ 106) with (2 ^ 53 * 2 ^ 53).
    nia. }
  assert (Hd : 105 <= Zdigits2 (Zpos (m1 * m2)) <= 106).
  { pose proof (Zdigits2_bounds (Zpos (m1 * m2)) ltac:(lia)).
    split; [|apply Zdigits2_le; lia].
    assert (104 < Zdigits2 (Zpos (m1 * m2))); [|lia]. apply pow2_lt_inv; lia. }
  destruct (binary_round_aux_normal (Zpos (m1 * m2)) (e1 + e2) loc_Exact)
    as (m & e & -> & Hm & He & Hle & Hv); [lia|lia|lia|].
  eexists. split; [done|]. split.
  - exists m, e. repeat split; lia.
  - simpl. rewrite F2Q_mul, <- Pos2Z.inj_mul.
    apply (F2Q_round_le _ _ _ _ Hle Hv).
Qed.

(** [int(x)] of a positive normal float is the floor of its value. *)
Lemma int_of_float_normal lo hi x :
  normal_pos lo hi x ->
  exists t, int_of_float x = Ok t /\
            (inject_Z t <= SF2Q x)%Q /\ (SF2Q x < inject_Z (t + 1))%Q.
Proof.
  intros (m & e & -> & Hm & He). cbn [int_of_float cond_Zopp SF2Q].
  eexists. split; [done|].
  destruct e as [|k|k].
  - rewrite Z.pow_0_r, Z.mul_1_r, F2Q_0. split; [apply Qle_refl|].
    rewrite <- Zlt_Qlt. lia.
  - replace (F2Q (Zpos m) (Zpos k)) with (F2Q (Zpos m) (0 + Zpos k)) by done.
    rewrite F2Q_shift, F2Q_0 by lia. split; [apply Qle_refl|].
    rewrite <- Zlt_Qlt. lia.
  - assert (Hk : 0 < 2 ^ Zpos k) by (apply pow2_pos; lia).
    set (t := Zpos m / 2 ^ Zpos k).
    assert (t * 2 ^ Zpos k <= Zpos m < (t + 1) * 2 ^ Zpos k).
    { pose proof (Z.mul_div_le (Zpos m) _ Hk).
      pose proof (Z.mul_succ_div_gt (Zpos m) _ Hk). fold t in H, H0. lia. }
    change (Zneg k) with (- Zpos k).
    rewrite <- (F2Q_unshift t (Zpos k)), <- (F2Q_unshift (t + 1) (Zpos k)) by lia.
    split; [apply F2Q_le_mono | apply F2Q_lt_mono]; lia.
Qed.

Lemma SF2Q_normal_pos lo hi x : normal_pos lo hi x -> (0 < SF2Q x)%Q.
Proof.
  intros (m & e & -> & _). simpl. unfold F2Q.
  apply Qmult_lt_0_compat; [by rewrite <- (Zlt_Qlt 0) | apply Qpow2_pos].
Qed.

Lemma Qmult_le_mono (a b c d : Q) :
  (0 <= a -> a <= b -> 0 <= c -> c <= d -> a * c <= b * d)%Q.
Proof.
  intros Ha Hab Hc Hcd.
  apply Qle_trans with (b * c)%Q.
  - by apply Qmult_le_compat_r.
  - rewrite !(Qmult_comm b). apply Qmult_le_compat_r; [done|].
    by apply Qle_trans with a.
Qed.

(** The arithmetic behind the fallback branch.  [A] is the rounded [1284 / w],
    [B] the rounded [h * A], [C] the rounded [2778 / h], [D] the rounded
    [w * C]; [HF] and [WF] are [h] and [w] as floats.  If [B] reached 2779,
    then [D] stays below 1285: the exact value of [D] is at most
    [1284 * 2778 / 2779], about 1283.54, and six roundings cannot lift it by
    more than a factor [(1 + 2^-52)^6]. *)
Lemma fallback_width_bound (w h A B C D HF WF : Q) :
  (0 < w -> 0 < h -> 0 < A -> 0 < C -> 0 < HF -> 0 < WF ->
   A * w <= 1284 * round_up_factor -> HF <= h * round_up_factor ->
   B <= HF * A * round_up_factor -> 2779 <= B ->
   C * h <= 2778 * round_up_factor -> WF <= w * round_up_factor ->
   D <= WF * C * round_up_factor -> D < 1285)%Q.
Proof.
  intros Hw Hh HA HC HHF HWF H1 H2 H3 H4 H5 H6 H7.
  assert (Hr : (round_up_factor <= 100001 # 100000)%Q) by (unfold round_up_factor, Qle; simpl; lia).
  assert (Hr0 : (0 <= round_up_factor)%Q) by (unfold round_up_factor, Qle; simpl; lia).
  set (r := round_up_factor) in *. set (R := (100001 # 100000)%Q) in *.
  assert (HR : (0 <= R)%Q) by (by unfold R).
  assert (HhR : (h * r <= h * R)%Q) by (apply Qmult_le_mono; lra).
  assert (HwR : (w * r <= w * R)%Q) by (apply Qmult_le_mono; lra).
  assert (T1 : (HF * A * r <= h * R * A * R)%Q).
  { apply Qmult_le_mono; [|apply Qmult_le_mono|..]; try lra.
    apply Qmult_le_0_compat; lra. }
  assert (T2 : (WF * C * r <= w * R * C * R)%Q).
  { apply Qmult_le_mono; [|apply Qmult_le_mono|..]; try lra.
    apply Qmult_le_0_compat; lra. }
  assert (T3 : (2779 * w <= h * R * A * R * w)%Q).
  { apply Qmult_le_mono; lra. }
  assert (T4 : (h * (R * R) * (A * w) <= h * (R * R) * (1284 * R))%Q).
  { apply Qmult_le_mono; try lra.
    - apply Qmult_le_0_compat; [lra|]. apply Qmult_le_0_compat; lra.
    - apply Qmult_le_0_compat; lra. }
  assert (S2 : (2779 * w <= 1284 * h * (R * R * R))%Q) by lra.
  assert (T5 : (2779 * w * (C * (R * R)) <= 1284 * h * (R * R * R) * (C * (R * R)))%Q).
  { apply Qmult_le_compat_r; [done|].
    apply Qmult_le_0_compat; [lra|]. apply Qmult_le_0_compat; lra. }
  assert (T6 : (1284 * (R * R * R * R * R) * (C * h) <= 1284 * (R * R * R * R * R) * (2778 * R))%Q).
  { apply Qmult_le_mono; try lra.
    - unfold R. done.
    - apply Qmult_le_0_compat; lra. }
  assert (S5 : (2779 * D <= 1284 * 2778 * (R * R * R * R * R * R))%Q) by lra.
  unfold R in S5. lra.
Qed.

(** [n * x] for [0 < n < 2^53] and a positive normal [x]. *)
Lemma int_mul_float_normal n x lo hi :
  0 < n < 2 ^ 53 -> normal_pos lo hi x -> -1022 <= lo -> hi <= 899 ->
  exists y, int_mul_float n x = Ok y /\ normal_pos lo (hi + 55) y /\
    exists nf : Q, (0 < nf)%Q /\ (nf <= inject_Z n * round_up_factor)%Q /\
                   (SF2Q y <= nf * SF2Q x * round_up_factor)%Q.
Proof.
  intros Hn Hx Hlo Hhi. unfold int_mul_float.
  destruct (float_of_int_normal n Hn) as (f & -> & Hf & Hfv). cbn [mbind result_bind].
  destruct (SFmul_normal (-52) 1 lo hi f x Hf Hx) as (y & Hy & Hny & Hyv); [lia..|].
  exists y. rewrite Hy. split; [done|]. split.
  - destruct Hny as (m & e & -> & Hm & He). exists m, e. repeat split; lia.
  - exists (SF2Q f). split; [by eapply SF2Q_normal_pos|]. done.
Qed.

End rounding.

(** ** The aspect-fit scaler *)

Section scaler.
Import create_appstore_screenshots.

(** [int(n * x)] for a product in the normal range: it succeeds, and the
    integer is the floor of the (already rounded) product. *)
Lemma truncated_product_normal n x lo hi :
  0 < n < 2 ^ 53 -> normal_pos lo hi x -> -1022 <= lo -> hi <= 899 ->
  exists p t,
    int_mul_float n x = Ok p /\ int_of_float p = Ok t /\
    (inject_Z t <= SF2Q p)%Q /\ (SF2Q p < inject_Z (t + 1))%Q.
Proof.
  intros Hn Hx Hlo Hhi.
  destruct (int_mul_float_normal n x lo hi Hn Hx Hlo Hhi) as (p & Hp & Hnp & _).
  destruct (int_of_float_normal _ _ p Hnp) as (t & Ht & Ht1 & Ht2).
  by exists p, t.
Qed.

(** C1. For source dimensions [w] and [h] that are positive (and below
    [2^53]; Pillow keeps the size of an image in C ints, below [2^31]) the
    scaling step returns dimensions [(new_w, new_h)] with
    [new_w <= 1284], [new_h <= 2778], and [new_w = 1284] or [new_h = 2778]. *)
Theorem scaled_dimensions_fit w h :
  0 < w < 2 ^ 53 -> 0 < h < 2 ^ 53 ->
  exists new_w new_h,
    scaled_dimensions w h = Ok (new_w, new_h) /\
    new_w <= 1284 /\ new_h <= 2778 /\
    (new_w = APPSTORE_WIDTH \/ new_h = APPSTORE_HEIGHT).
Proof.
  intros Hw Hh. unfold scaled_dimensions, APPSTORE_WIDTH, APPSTORE_HEIGHT.
  destruct (int_truediv_normal 1284 w ltac:(lia) Hw) as (a & -> & Ha & Hav).
  cbn [mbind result_bind].
  destruct (int_mul_float_normal h a _ _ Hh Ha ltac:(lia) ltac:(lia))
    as (b & -> & Hb & hf & Hhf0 & Hhf & Hbv).
  cbn [mbind result_bind].
  destruct (int_of_float_normal _ _ b Hb) as (nh & -> & Hnh1 & Hnh2).
  cbn [mbind result_bind].
  destruct (Z.gtb_spec nh 2778) as [Hgt|Hle].
  - destruct (int_truediv_normal 2778 h ltac:(lia) Hh) as (c & -> & Hc & Hcv).
    cbn [mbind result_bind].
    destruct (int_mul_float_normal w c _ _ Hw Hc ltac:(lia) ltac:(lia))
      as (d & -> & Hd & wf & Hwf0 & Hwf & Hdv).
    cbn [mbind result_bind].
    destruct (int_of_float_normal _ _ d Hd) as (nw & -> & Hnw1 & Hnw2).
    cbn [mbind result_bind]. exists nw, 2778. split; [done|]. split; [|lia].
    assert (Hlt : (inject_Z nw < inject_Z 1285)%Q).
    { eapply Qle_lt_trans; [exact Hnw1|].
      apply (fallback_width_bound (inject_Z w) (inject_Z h)
               (SF2Q a) (SF2Q b) (SF2Q c) _ hf wf); try done.
      - rewrite <- (Zlt_Qlt 0). lia.
      - rewrite <- (Zlt_Qlt 0). lia.
      - by eapply SF2Q_normal_pos.
      - by eapply SF2Q_normal_pos.
      - eapply Qle_trans; [|exact Hnh1]. change 2779%Q with (inject_Z 2779).
        rewrite <- Zle_Qle. lia. }
    rewrite <- Zlt_Qlt in Hlt. lia.
  - exists 1284, nh. split; [done|]. lia.
Qed.

Lemma scaled_dimensions_fit_witness :
  exists new_w new_h,
    scaled_dimensions 1170 2532 = Ok (new_w, new_h) /\
    new_w <= 1284 /\ new_h <= 2778 /\
    (new_w = APPSTORE_WIDTH \/ new_h = APPSTORE_HEIGHT).
Proof. apply (scaled_dimensions_fit 1170 2532); lia. Defined.

(** C2, as the specification words it, fails: on the 1170 x 2532 screenshot
    of the specification's example A the product [h * s] is 2778.7, which
    exceeds 2778, yet the code keeps the width-first scale and returns
    (1284, 2778), where the worded policy returns (1283, 2778).  On a
    39 x 39 source no height is exceeded, and the code returns the width
    1284 although [int(39 * (1284 / 39))] is 1283. *)
Lemma policy_as_specified_differs :
  (scaled_dimensions 1170 2532 = Ok (1284, 2778) /\
   policy_as_specified 1170 2532 = Ok (1283, 2778) /\
   scaled_dimensions 1170 2532 <> policy_as_specified 1170 2532) /\
  (scaled_dimensions 39 39 = Ok (1284, 1283) /\
   policy_as_specified 39 39 = Ok (1283, 1283) /\
   exists s ws,
     int_truediv APPSTORE_WIDTH 39 = Ok s /\
     int_mul_float 39 s = Ok ws /\ int_of_float ws = Ok 1283 /\
     (SF2Q ws < 1284)%Q).
Proof.
  split; [|split; [|split]]; try (vm_compute; reflexivity).
  - split; [|split]; try (vm_compute; reflexivity). vm_compute. discriminate.
  - eexists _, _. split; [vm_compute; reflexivity|].
    split; [vm_compute; reflexivity|]. split; vm_compute; reflexivity.
Qed.

(** C2, amended.  The scale is [s = W / w] first and the height is
    [int(h * s)], the floor of the float product.  If that integer is at most
    [H], the result is [(W, int(h * s))]: the width is the constant, not a
    truncation.  If it exceeds [H], the scale is recomputed as [s' = H / h]
    and the result is [(int(w * s'), H)]: the height is the constant. *)
Theorem scaled_dimensions_policy w h :
  0 < w < 2 ^ 53 -> 0 < h < 2 ^ 53 ->
  exists s hs t,
    int_truediv APPSTORE_WIDTH w = Ok s /\
    int_mul_float h s = Ok hs /\ int_of_float hs = Ok t /\
    (inject_Z t <= SF2Q hs)%Q /\ (SF2Q hs < inject_Z (t + 1))%Q /\
    (t <= APPSTORE_HEIGHT -> scaled_dimensions w h = Ok (APPSTORE_WIDTH, t)) /\
    (APPSTORE_HEIGHT < t ->
     exists s' ws t',
       int_truediv APPSTORE_HEIGHT h = Ok s' /\
       int_mul_float w s' = Ok ws /\ int_of_float ws = Ok t' /\
       (inject_Z t' <= SF2Q ws)%Q /\ (SF2Q ws < inject_Z (t' + 1))%Q /\
       scaled_dimensions w h = Ok (t', APPSTORE_HEIGHT)).
Proof.
  intros Hw Hh. unfold scaled_dimensions, APPSTORE_WIDTH, APPSTORE_HEIGHT.
  destruct (int_truediv_normal 1284 w ltac:(lia) Hw) as (s & Hs & Hns & _).
  destruct (truncated_product_normal h s _ _ Hh Hns ltac:(lia) ltac:(lia))
    as (hs & t & Hhs & Ht & Ht1 & Ht2).
  exists s, hs, t.
  rewrite Hs. cbn [mbind result_bind]. rewrite Hhs. cbn [mbind result_bind].
  rewrite Ht. cbn [mbind result_bind].
  repeat split; try done.
  - intros Hle. destruct (Z.gtb_spec t 2778); [lia|done].
  - intros Hgt. destruct (Z.gtb_spec t 2778); [|lia].
    destruct (int_truediv_normal 2778 h ltac:(lia) Hh) as (s' & Hs' & Hns' & _).
    destruct (truncated_product_normal w s' _ _ Hw Hns' ltac:(lia) ltac:(lia))
      as (ws & t' & Hws & Ht' & Ht1' & Ht2').
    exists s', ws, t'.
    rewrite Hs'. cbn [mbind result_bind]. rewrite Hws. cbn [mbind result_bind].
    by rewrite Ht'.
Qed.

Lemma scaled_dimensions_policy_witness :
  exists s hs t,
    int_truediv APPSTORE_WIDTH 1170 = Ok s /\
    int_mul_float 2532 s = Ok hs /\ int_of_float hs = Ok t /\
    (inject_Z t <= SF2Q hs)%Q /\ (SF2Q hs < inject_Z (t + 1))%Q /\
    (t <= APPSTORE_HEIGHT -> scaled_dimensions 1170 2532 = Ok (APPSTORE_WIDTH, t)) /\
    (APPSTORE_HEIGHT < t ->
     exists s' ws t',
       int_truediv APPSTORE_HEIGHT 2532 = Ok s' /\
       int_mul_float 1170 s' = Ok ws /\ int_of_float ws = Ok t' /\
       (inject_Z t' <= SF2Q ws)%Q /\ (SF2Q ws < inject_Z (t' + 1))%Q /\
       scaled_dimensions 1170 2532 = Ok (t', APPSTORE_HEIGHT)).
Proof. apply (scaled_dimensions_policy 1170 2532); lia. Defined.

End scaler.

(** ** Rounding from below

    The accuracy of the scaled dimensions needs the lower bounds that match
    the upper bounds above. *)

Section rounding_below.

(** Rounding in the normal range loses at most the factor [1 - 2^-52]. *)
Lemma binary_round_aux_normal_lower mx ex lx m e :
  2 ^ 52 <= mx -> -1074 <= ex -> Zdigits2 mx + ex <= 1023 ->
  binary_round_aux prec emax false mx ex lx = S754_finite false m e ->
  ex <= e /\ mx * (2 ^ 52 - 1) <= Zpos m * 2 ^ (e - ex) * 2 ^ 52.
Proof.
  intros Hmx Hex Hov Hround.
  assert (Hpos : 0 < mx) by lia.
  pose proof (Zdigits2_bounds mx Hpos) as Hd.
  set (d := Zdigits2 mx) in *.
  assert (53 <= d).
  { assert (52 < d); [|lia]. apply pow2_lt_inv; lia. }
  destruct (binary_round_aux_shape mx ex lx Hpos) as (m1 & Hm1 & Heq).
  rewrite Hround in Heq.
  assert (Hn : shift_amount mx ex = d - 53).
  { unfold shift_amount. fold d. rewrite fexp_normal by lia. lia. }
  rewrite Hn in *. cbn zeta in Heq.
  set (q := mx / 2 ^ (d - 53)) in *.
  assert (Hp : 0 < 2 ^ (d - 53)) by (apply pow2_pos; lia).
  assert (Hq : 2 ^ 52 <= q < 2 ^ 53).
  { split.
    - apply Z.div_le_lower_bound; [done|].
      rewrite <- Z.pow_add_r by lia. replace (d - 53 + 52) with (d - 1) by lia. apply Hd.
    - apply Z.div_lt_upper_bound; [done|].
      rewrite <- Z.pow_add_r by lia. replace (d - 53 + 53) with d by lia. apply Hd. }
  assert (Hqm : mx < (q + 1) * 2 ^ (d - 53)).
  { unfold q. rewrite Z.mul_comm. apply Z.mul_succ_div_gt. done. }
  assert (Hlow : mx * (2 ^ 52 - 1) <= q * 2 ^ (d - 53) * 2 ^ 52) by nia.
  destruct (Z_lt_le_dec m1 (2 ^ 53)) as [Hlt|Hge].
  - assert (Hd1 : Zdigits2 m1 = 53) by (apply Zdigits2_unique; lia).
    assert (Hn1 : shift_amount m1 (ex + (d - 53)) = 0).
    { unfold shift_amount. rewrite Hd1, fexp_normal by lia. lia. }
    rewrite Hn1, Z.pow_0_r, Z.div_1_r, Z.add_0_r in Heq.
    destruct m1 as [|m'|m']; try lia.
    replace (ex + (d - 53) <=? 1024 - 53) with true in Heq by (symmetry; apply Z.leb_le; lia).
    injection Heq as -> ->. split; [lia|].
    replace (ex + (d - 53) - ex) with (d - 53) by lia. nia.
  - assert (m1 = 2 ^ 53) by lia. subst m1.
    assert (Hn1 : shift_amount (2 ^ 53) (ex + (d - 53)) = 1).
    { unfold shift_amount. replace (Zdigits2 (2 ^ 53)) with 54 by reflexivity.
      rewrite fexp_normal by lia. lia. }
    rewrite Hn1 in Heq. change (2 ^ 53 / 2 ^ 1) with (Zpos (2 ^ 52)) in Heq.
    replace (ex + (d - 53) + 1 <=? 1024 - 53) with true in Heq by (symmetry; apply Z.leb_le; lia).
    injection Heq as -> ->. split; [lia|].
    replace (ex + (d - 53) + 1 - ex) with ((d - 53) + 1) by lia.
    rewrite Z.pow_add_r by lia. change (Z.pos (2 ^ 52)) with (2 ^ 52). nia.
Qed.

Lemma F2Q_round_ge m e mx ex :
  ex <= e ->
  mx * (2 ^ 52 - 1) <= m * 2 ^ (e - ex) * 2 ^ 52 ->
  (F2Q mx ex * round_down_factor <= F2Q m e)%Q.
Proof.
  intros He H.
  replace e with (ex + (e - ex)) at 1 by lia.
  rewrite F2Q_shift by lia.
  apply (F2Q_le_mono _ _ ex) in H.
  rewrite !F2Q_scale in H.
  change (inject_Z (2 ^ 52)) with (4503599627370496 # 1)%Q in H.
  change (inject_Z (2 ^ 52 - 1)) with (4503599627370495 # 1)%Q in H.
  unfold round_down_factor.
  rewrite F2Q_scale.
  set (X := F2Q m ex) in *. set (Y := F2Q mx ex) in *.
  set (P := inject_Z (2 ^ (e - ex))) in *. lra.
Qed.

End rounding_below.

Section operations_below.

(** [float(n)] for [0 < n < 2^53], from below. *)
Lemma float_of_int_lower n x :
  0 < n < 2 ^ 53 -> float_of_int n = Ok x ->
  (inject_Z n * round_down_factor <= SF2Q x)%Q.
Proof.
  intros Hn. destruct n as [|p|p]; try lia.
  unfold float_of_int, binary_normalize, binary_round.
  pose proof (Zdigits2_bounds (Zpos p) ltac:(lia)) as Hd.
  change (Zdigits2 (Zpos p)) with (Zpos (digits2_pos p)) in Hd.
  set (d := Zpos (digits2_pos p)) in *.
  assert (1 <= d <= 53).
  { split; [unfold d; lia|]. assert (d - 1 < 53); [|lia]. apply pow2_lt_inv; lia. }
  rewrite Z.add_0_r, fexp_normal by lia.
  assert (Hal : exists mz ez, shl_align p 0 (d - 53) = (mz, ez) /\
            Zpos mz = Zpos p * 2 ^ (53 - d) /\ ez = d - 53).
  { unfold shl_align. destruct (d - 53 - 0) as [|k|k] eqn:Hk; try lia.
    - eexists _, _. split; [done|]. replace (53 - d) with 0 by lia. lia.
    - eexists _, _. split; [done|]. rewrite iter_xO_pow2.
      replace (53 - d) with (Zpos k) by lia. lia. }
  destruct Hal as (mz & ez & -> & Hmz & ->).
  assert (Hb : 2 ^ 52 <= Zpos mz < 2 ^ 53).
  { rewrite Hmz.
    assert (0 < 2 ^ (53 - d)) by (apply pow2_pos; lia).
    assert (E1 : 2 ^ 52 = 2 ^ (d - 1) * 2 ^ (53 - d)).
    { rewrite <- Z.pow_add_r by lia. f_equal. lia. }
    assert (E2 : 2 ^ 53 = 2 ^ d * 2 ^ (53 - d)).
    { rewrite <- Z.pow_add_r by lia. f_equal. lia. }
    rewrite E1, E2. split.
    - apply Z.mul_le_mono_nonneg_r; lia.
    - apply Z.mul_lt_mono_pos_r; lia. }
  assert (Hdz : Zdigits2 (Zpos mz) = 53) by (apply Zdigits2_unique; lia).
  destruct (binary_round_aux_normal (Zpos mz) (d - 53) loc_Exact)
    as (m & e & Heq & Hm & He & Hle & Hv); [lia|lia|rewrite Hdz; lia|].
  rewrite Heq. intros [= <-].
  destruct (binary_round_aux_normal_lower (Zpos mz) (d - 53) loc_Exact m e)
    as [_ Hlow]; [lia|lia|rewrite Hdz; lia|done|].
  simpl. eapply Qle_trans; [|apply (F2Q_round_ge _ _ _ _ Hle Hlow)].
  apply Qmult_le_compat_r; [|done].
  rewrite Hmz. replace (d - 53) with (- (53 - d)) by lia.
  rewrite <- (F2Q_shift _ _ (53 - d)) by lia.
  replace (- (53 - d) + (53 - d)) with 0 by lia. rewrite F2Q_0. apply Qle_refl.
Qed.

(** The quotient digits are more than the exact quotient minus one. *)
Lemma SFdiv_core_binary_ints_lower a b q e l :
  0 < a < 2 ^ 53 -> 0 < b < 2 ^ 53 ->
  SFdiv_core_binary prec emax a 0 b 0 = (q, e, l) ->
  a * 2 ^ (53 + Zdigits2 b - Zdigits2 a) < (q + 1) * b.
Proof.
  intros Ha Hb. unfold SFdiv_core_binary.
  pose proof (Zdigits2_le a 53 Ha). pose proof (Zdigits2_le b 53 Hb).
  pose proof (Zdigits2_pos a ltac:(lia)). pose proof (Zdigits2_pos b ltac:(lia)).
  set (d1 := Zdigits2 a) in *. set (d2 := Zdigits2 b) in *.
  replace (Z.min (fexp prec emax (d1 + 0 - (d2 + 0))) (0 - 0)) with (d1 - d2 - 53)
    by (rewrite fexp_normal; lia).
  destruct (0 - 0 - (d1 - d2 - 53)) as [|k|k] eqn:Hs; try lia.
  rewrite Z.shiftl_mul_pow2 by lia.
  replace (53 + d2 - d1) with (Zpos k) by lia.
  pose proof (Z_div_mod (a * 2 ^ Zpos k) b ltac:(lia)) as Hdiv.
  destruct (Z.div_eucl (a * 2 ^ Zpos k) b) as [q' r].
  destruct Hdiv as [Hqr Hr]. intros [= <- _ _]. lia.
Qed.

(** [a / b] for positive integers below [2^53], from below. *)
Lemma int_truediv_lower a b x :
  0 < a < 2 ^ 53 -> 0 < b < 2 ^ 53 -> int_truediv a b = Ok x ->
  (inject_Z a * round_down_factor <= SF2Q x * inject_Z b * round_up_factor)%Q.
Proof.
  intros Ha Hb.
  destruct (SFdiv_core_binary_ints a b Ha Hb) as (q & l & Hcore & Hq & Hqb).
  pose proof (SFdiv_core_binary_ints_lower a b _ _ _ Ha Hb Hcore) as Hlow.
  pose proof (Zdigits2_le a 53 Ha). pose proof (Zdigits2_le b 53 Hb).
  pose proof (Zdigits2_pos a ltac:(lia)). pose proof (Zdigits2_pos b ltac:(lia)).
  pose proof (Zdigits2_le q 54 ltac:(lia)) as Hdq.
  destruct a as [|pa|pa]; try lia. destruct b as [|pb|pb]; try lia.
  unfold int_truediv, SFdiv.
  change (Z.to_pos (Z.abs (Z.pos pa))) with pa.
  change (Z.to_pos (Z.abs (Z.pos pb))) with pb.
  change (Z.pos pa <? 0) with false. change (Z.pos pb <? 0) with false.
  cbn [xorb]. rewrite Hcore.
  set (e' := Zdigits2 (Zpos pa) - Zdigits2 (Zpos pb) - 53) in *.
  set (s := 53 + Zdigits2 (Zpos pb) - Zdigits2 (Zpos pa)) in *.
  destruct (binary_round_aux_normal q e' l) as (m & e & Heq & Hm & He & Hle & Hv);
    [lia|lia|lia|].
  rewrite Heq. intros [= <-].
  destruct (binary_round_aux_normal_lower q e' l m e) as [_ Hrl]; [lia|lia|lia|done|].
  pose proof (F2Q_round_ge _ _ _ _ Hle Hrl) as Hr. simpl.
  (* the exact quotient is below [q * (1 + 2^-52)] *)
  assert (Hx : (inject_Z (Zpos pa) <= F2Q q e' * inject_Z (Zpos pb) * round_up_factor)%Q).
  { assert (Hint : Zpos pa * 2 ^ s * 2 ^ 52 <= q * Zpos pb * (2 ^ 52 + 1)) by nia.
    apply (F2Q_le_mono _ _ e') in Hint.
    rewrite !F2Q_scale in Hint.
    replace e' with (- s) in Hint at 1 by (unfold e', s; lia).
    assert (Hu : (F2Q (Zpos pa) (- s) * inject_Z (2 ^ s) == inject_Z (Zpos pa))%Q).
    { rewrite <- F2Q_scale. apply F2Q_unshift. unfold s. lia. }
    rewrite Hu in Hint.
    change (inject_Z (2 ^ 52)) with (4503599627370496 # 1)%Q in Hint.
    change (inject_Z (2 ^ 52 + 1)) with (4503599627370497 # 1)%Q in Hint.
    unfold round_up_factor.
    set (A := inject_Z (Zpos pa)) in *. set (Y := F2Q q e') in *.
    set (B := inject_Z (Zpos pb)) in *. lra. }
  assert (HB : (0 < inject_Z (Zpos pb))%Q) by (by rewrite <- (Zlt_Qlt 0)).
  assert (HY : (0 <= F2Q q e')%Q).
  { unfold F2Q. apply Qmult_le_0_compat; [rewrite <- (Zle_Qle 0); lia|].
    apply Qlt_le_weak, Qpow2_pos. }
  (* combine: a * rdf <= Y * b * ruf * rdf <= X * b * ruf *)
  assert (Hr' : (F2Q q e' * round_down_factor * (inject_Z (Zpos pb) * round_up_factor)
                 <= F2Q (Zpos m) e * (inject_Z (Zpos pb) * round_up_factor))%Q).
  { apply Qmult_le_compat_r; [done|]. apply Qmult_le_0_compat; [lra|]. by unfold round_up_factor. }
  assert (Hx' : (inject_Z (Zpos pa) * round_down_factor
                 <= F2Q q e' * inject_Z (Zpos pb) * round_up_factor * round_down_factor)%Q).
  { apply Qmult_le_compat_r; [done|]. by unfold round_down_factor. }
  set (A := inject_Z (Zpos pa)) in *. set (Y := F2Q q e') in *.
  set (B := inject_Z (Zpos pb)) in *. set (X := F2Q (Zpos m) e) in *.
  set (u := round_up_factor) in *. set (v := round_down_factor) in *. lra.
Qed.

(** The product of two positive normal floats, from below. *)
Lemma SFmul_lower lo1 hi1 lo2 hi2 x y :
  normal_pos lo1 hi1 x -> normal_pos lo2 hi2 y ->
  -1074 <= lo1 + lo2 -> hi1 + hi2 <= 900 ->
  (SF2Q x * SF2Q y * round_down_factor <= SF2Q (SFmul prec emax x y))%Q.
Proof.
  intros (m1 & e1 & -> & Hm1 & He1) (m2 & e2 & -> & Hm2 & He2) Hlo Hhi.
  cbn [SFmul xorb].
  assert (Hp : 2 ^ 104 <= Zpos (m1 * m2) < 2 ^ 106).
  { rewrite Pos2Z.inj_mul.
    change (2 ^ 104) with (2 ^ 52 * 2 ^ 52). change (2 ^ 106) with (2 ^ 53 * 2 ^ 53).
    nia. }
  assert (Hd : 105 <= Zdigits2 (Zpos (m1 * m2)) <= 106).
  { pose proof (Zdigits2_bounds (Zpos (m1 * m2)) ltac:(lia)).
    split; [|apply Zdigits2_le; lia].
    assert (104 < Zdigits2 (Zpos (m1 * m2))); [|lia]. apply pow2_lt_inv; lia. }
  destruct (binary_round_aux_normal (Zpos (m1 * m2)) (e1 + e2) loc_Exact)
    as (m & e & Heq & Hm & He & Hle & Hv); [lia|lia|lia|].
  destruct (binary_round_aux_normal_lower (Zpos (m1 * m2)) (e1 + e2) loc_Exact m e)
    as [_ Hrl]; [lia|lia|lia|done|].
  rewrite Heq. simpl. rewrite F2Q_mul, <- Pos2Z.inj_mul.
  apply (F2Q_round_ge _ _ _ _ Hle Hrl).
Qed.

(** [n * x] for [0 < n < 2^53] and a positive normal [x], from below. *)
Lemma int_mul_float_lower n x y lo hi :
  0 < n < 2 ^ 53 -> normal_pos lo hi x -> -1022 <= lo -> hi <= 899 ->
  int_mul_float n x = Ok y ->
  (inject_Z n * round_down_factor * SF2Q x * round_down_factor <= SF2Q y)%Q.
Proof.
  intros Hn Hx Hlo Hhi. unfold int_mul_float.
  destruct (float_of_int_normal n Hn) as (f & Hf & Hnf & _).
  pose proof (float_of_int_lower n f Hn Hf) as Hfl.
  rewrite Hf. cbn [mbind result_bind]. intros [= <-].
  pose proof (SFmul_lower (-52) 1 lo hi f x Hnf Hx ltac:(lia) ltac:(lia)) as Hm.
  eapply Qle_trans; [|exact Hm].
  apply Qmult_le_compat_r; [|by unfold round_down_factor].
  apply Qmult_le_compat_r; [done|].
  apply Qlt_le_weak. by eapply SF2Q_normal_pos.
Qed.

End operations_below.

Section scaled_length.

Lemma Q_three_roundings (d k n A P NF T : Q) :
  (0 < d -> 0 < k -> 0 < n -> 0 < A -> 0 < NF ->
   A * d <= k * round_up_factor ->
   k * round_down_factor <= A * d * round_up_factor ->
   NF <= n * round_up_factor ->
   P <= NF * A * round_up_factor ->
   n * round_down_factor * A * round_down_factor <= P ->
   T <= P -> P < T + 1 ->
   T * d * (1000000000000000 # 1) <= k * n * (1000000000000001 # 1) /\
   k * n * (999999999999999 # 1) < (T + 1) * d * (1000000000000000 # 1))%Q.
Proof.
  intros Hd Hk Hn HA HNF H1 H2 H3 H4 H5 H6 H7.
  set (u := round_up_factor) in *. set (v := round_down_factor) in *.
  assert (Hu : (0 <= u)%Q) by (by unfold u, round_up_factor).
  assert (Hv : (0 <= v)%Q) by (by unfold v, round_down_factor).
  assert (Hu3 : (u * u * u * (1000000000000000 # 1) <= 1000000000000001 # 1)%Q)
    by (by vm_compute).
  assert (Hv3 : ((999999999999999 # 1) * u <= v * v * v * (1000000000000000 # 1))%Q)
    by (by vm_compute).
  (* from above: P * d <= n * k * u^3 *)
  assert (U1 : (NF * A * u <= n * u * A * u)%Q).
  { apply Qmult_le_compat_r; [|done]. apply Qmult_le_compat_r; [done|lra]. }
  assert (U2 : (n * (u * u) * (A * d) <= n * (u * u) * (k * u))%Q).
  { apply Qmult_le_mono; try lra.
    - apply Qmult_le_0_compat; [lra|]. by apply Qmult_le_0_compat.
    - apply Qmult_le_0_compat; lra. }
  assert (U3 : (P * d <= n * u * A * u * d)%Q).
  { apply Qmult_le_compat_r; lra. }
  assert (U4 : (T * d <= P * d)%Q) by (apply Qmult_le_compat_r; lra).
  assert (U5 : (k * n * (u * u * u * (1000000000000000 # 1))
                <= k * n * (1000000000000001 # 1))%Q).
  { apply Qmult_le_mono; try lra.
    - apply Qmult_le_0_compat; lra.
    - apply Qmult_le_0_compat; [|done].
      apply Qmult_le_0_compat; [|done]. by apply Qmult_le_0_compat. }
  (* from below: n * k * v^3 <= P * d * u *)
  assert (L1 : (n * (v * v) * (k * v) <= n * (v * v) * (A * d * u))%Q).
  { apply Qmult_le_mono; try lra.
    - apply Qmult_le_0_compat; [lra|]. by apply Qmult_le_0_compat.
    - apply Qmult_le_0_compat; [lra|done]. }
  assert (L2 : (n * v * A * v * (d * u) <= P * (d * u))%Q).
  { apply Qmult_le_compat_r; [done|]. apply Qmult_le_0_compat; lra. }
  assert (L3 : (P * (d * u) < (T + 1) * (d * u))%Q).
  { apply Qmult_lt_compat_r; [|done].
    apply Qlt_le_trans with (d * 1)%Q; [lra|].
    apply Qmult_le_mono; try lra. by unfold u, round_up_factor. }
  assert (L4 : (k * n * ((999999999999999 # 1) * u)
                <= k * n * (v * v * v * (1000000000000000 # 1)))%Q).
  { apply Qmult_le_mono; try lra. apply Qmult_le_0_compat; lra. }
  split; [lra|].
  assert (L5 : (k * n * (999999999999999 # 1) * u
                < (T + 1) * d * (1000000000000000 # 1) * u)%Q) by lra.
  assert (Hu1 : (0 < u)%Q) by (by unfold u, round_up_factor).
  apply (Qmult_lt_r _ _ u Hu1). exact L5.
Qed.

(** [int(n * (k / d))] for positive integers below [2^53]: the operations
    succeed and the result is the exact quotient [k * n / d], truncated, up to
    a relative error of [10^-15]. *)
Lemma scaled_length_bounds k d n :
  0 < k < 2 ^ 53 -> 0 < d < 2 ^ 53 -> 0 < n < 2 ^ 53 ->
  exists s p t,
    int_truediv k d = Ok s /\ int_mul_float n s = Ok p /\ int_of_float p = Ok t /\
    t * d * rounding_slack <= k * n * (rounding_slack + 1) /\
    k * n * (rounding_slack - 1) < (t + 1) * d * rounding_slack.
Proof.
  intros Hk Hd Hn.
  destruct (int_truediv_normal k d Hk Hd) as (s & Hs & Hns & Hsu).
  pose proof (int_truediv_lower k d s Hk Hd Hs) as Hsl.
  destruct (int_mul_float_normal n s _ _ Hn Hns ltac:(lia) ltac:(lia))
    as (p & Hp & Hnp & nf & Hnf0 & Hnf & Hpu).
  pose proof (int_mul_float_lower n s p _ _ Hn Hns ltac:(lia) ltac:(lia) Hp) as Hpl.
  destruct (int_of_float_normal _ _ p Hnp) as (t & Ht & Ht1 & Ht2).
  exists s, p, t. split; [done|]. split; [done|]. split; [done|].
  destruct (Q_three_roundings (inject_Z d) (inject_Z k) (inject_Z n)
              (SF2Q s) (SF2Q p) nf (inject_Z t)) as [Hup Hlow]; try done.
  - rewrite <- (Zlt_Qlt 0). lia.
  - rewrite <- (Zlt_Qlt 0). lia.
  - rewrite <- (Zlt_Qlt 0). lia.
  - by eapply SF2Q_normal_pos.
  - by rewrite inject_Z_plus in Ht2.
  - unfold rounding_slack. split.
    + rewrite Zle_Qle, !inject_Z_mult. exact Hup.
    + rewrite Zlt_Qlt, !inject_Z_mult, inject_Z_plus. exact Hlow.
Qed.

End scaled_length.

(** ** Which branch the scaler takes, and how exact its result is *)

Section scaler_more.
Import create_appstore_screenshots.

(** The two branches of the scaler, each with the accuracy of the dimension
    that is computed. *)
Lemma scaled_dimensions_cases w h :
  0 < w < 2 ^ 53 -> 0 < h < 2 ^ 53 ->
  exists t,
    t * w * rounding_slack <= 1284 * h * (rounding_slack + 1) /\
    1284 * h * (rounding_slack - 1) < (t + 1) * w * rounding_slack /\
    ((t <= 2778 /\ scaled_dimensions w h = Ok (1284, t)) \/
     (2778 < t /\ exists t',
        t' * h * rounding_slack <= 2778 * w * (rounding_slack + 1) /\
        2778 * w * (rounding_slack - 1) < (t' + 1) * h * rounding_slack /\
        scaled_dimensions w h = Ok (t', 2778))).
Proof.
  intros Hw Hh. unfold scaled_dimensions, APPSTORE_WIDTH, APPSTORE_HEIGHT.
  destruct (scaled_length_bounds 1284 w h ltac:(lia) Hw Hh)
    as (s & p & t & -> & Hp & Ht & Hup & Hlow).
  cbn [mbind result_bind]. rewrite Hp. cbn [mbind result_bind].
  rewrite Ht. cbn [mbind result_bind].
  exists t. split; [done|]. split; [done|].
  destruct (Z.gtb_spec t 2778) as [Hgt|Hle]; [right|left; by split].
  split; [lia|].
  destruct (scaled_length_bounds 2778 h w ltac:(lia) Hh Hw)
    as (s' & p' & t' & -> & Hp' & Ht' & Hup' & Hlow').
  cbn [mbind result_bind]. rewrite Hp'. cbn [mbind result_bind].
  rewrite Ht'. cbn [mbind result_bind].
  by exists t'.
Qed.

(** Cancelling the source dimension in the bounds: if [k * n / d] is at most
    (at least) [c1 / c2], so is the truncated float result, up to the slack. *)
Lemma slack_upper t d k n c1 c2 :
  0 < d -> 0 < c2 ->
  t * d * rounding_slack <= k * n * (rounding_slack + 1) ->
  c2 * (k * n) <= c1 * d ->
  t * c2 * rounding_slack <= c1 * (rounding_slack + 1).
Proof.
  unfold rounding_slack. intros Hd Hc Hup Hkn.
  assert (H1 : c2 * (t * d * 10 ^ 15) <= c2 * (k * n * (10 ^ 15 + 1))) by nia.
  assert (H2 : c2 * (k * n) * (10 ^ 15 + 1) <= c1 * d * (10 ^ 15 + 1)) by nia.
  assert (H3 : (t * c2 * 10 ^ 15) * d <= (c1 * (10 ^ 15 + 1)) * d) by lia.
  by apply Z.mul_le_mono_pos_r in H3.
Qed.

Lemma slack_lower t d k n c1 c2 :
  0 < d -> 0 < c2 ->
  k * n * (rounding_slack - 1) < (t + 1) * d * rounding_slack ->
  c1 * d <= c2 * (k * n) ->
  c1 * (rounding_slack - 1) < (t + 1) * c2 * rounding_slack.
Proof.
  unfold rounding_slack. intros Hd Hc Hlow Hkn.
  assert (H1 : c2 * (k * n * (10 ^ 15 - 1)) < c2 * ((t + 1) * d * 10 ^ 15)) by nia.
  assert (H2 : c1 * d * (10 ^ 15 - 1) <= c2 * (k * n) * (10 ^ 15 - 1)) by nia.
  assert (H3 : (c1 * (10 ^ 15 - 1)) * d < ((t + 1) * c2 * 10 ^ 15) * d) by lia.
  by apply Z.mul_lt_mono_pos_r in H3.
Qed.

(** X2. A source that is not taller than the store format, [h / w <= 2778 / 1284],
    gets the full width 1284. *)
Theorem source_not_taller_fills_width w h :
  0 < w < 2 ^ 53 -> 0 < h < 2 ^ 53 -> 1284 * h <= 2778 * w ->
  exists new_h, scaled_dimensions w h = Ok (1284, new_h) /\ 0 <= new_h <= 2778.
Proof.
  intros Hw Hh Hratio.
  destruct (scaled_dimensions_cases w h Hw Hh) as (t & Hup & Hlow & Hcases).
  pose proof (slack_upper t w 1284 h 2778 1 ltac:(lia) ltac:(lia) Hup ltac:(lia)) as Hu.
  pose proof (slack_lower t w 1284 h 0 1 ltac:(lia) ltac:(lia) Hlow ltac:(lia)) as Hl.
  unfold rounding_slack in Hu, Hl.
  destruct Hcases as [[Hle Heq]|[Hgt _]]; [|lia].
  exists t. split; [done|]. lia.
Qed.

(** X3. A source that is clearly taller, [h / w >= 2780 / 1284], gets the full
    height 2778 and a width of at most 1284. *)
Theorem source_taller_fills_height w h :
  0 < w < 2 ^ 53 -> 0 < h < 2 ^ 53 -> 2780 * w <= 1284 * h ->
  exists new_w, scaled_dimensions w h = Ok (new_w, 2778) /\ 0 <= new_w < 1284.
Proof.
  intros Hw Hh Hratio.
  destruct (scaled_dimensions_cases w h Hw Hh) as (t & Hup & Hlow & Hcases).
  pose proof (slack_lower t w 1284 h 2780 1 ltac:(lia) ltac:(lia) Hlow ltac:(lia)) as Hl.
  unfold rounding_slack in Hl.
  destruct Hcases as [[Hle _]|(_ & t' & Hup' & Hlow' & Heq)]; [lia|].
  exists t'. split; [done|].
  pose proof (slack_upper t' h 2778 w (2778 * 1284) 2780 ltac:(lia) ltac:(lia) Hup' ltac:(lia)) as Hu.
  pose proof (slack_lower t' h 2778 w 0 1 ltac:(lia) ltac:(lia) Hlow' ltac:(lia)) as Hl'.
  unfold rounding_slack in Hu, Hl'. lia.
Qed.

(** X1. The dimension that is not pinned is the exact scaled length, truncated,
    up to a relative error of [10^-15]: the aspect ratio is kept within one
    pixel. *)
Theorem scaled_dimensions_accurate w h :
  0 < w < 2 ^ 53 -> 0 < h < 2 ^ 53 ->
  exists new_w new_h,
    scaled_dimensions w h = Ok (new_w, new_h) /\
    ((new_w = 1284 /\
      new_h * w * 10 ^ 15 <= 1284 * h * (10 ^ 15 + 1) /\
      1284 * h * (10 ^ 15 - 1) < (new_h + 1) * w * 10 ^ 15) \/
     (new_h = 2778 /\
      new_w * h * 10 ^ 15 <= 2778 * w * (10 ^ 15 + 1) /\
      2778 * w * (10 ^ 15 - 1) < (new_w + 1) * h * 10 ^ 15)).
Proof.
  intros Hw Hh.
  destruct (scaled_dimensions_cases w h Hw Hh) as (t & Hup & Hlow & Hcases).
  destruct Hcases as [[Hle Heq]|(_ & t' & Hup' & Hlow' & Heq)].
  - exists 1284, t. split; [done|]. left. by repeat split.
  - exists t', 2778. split; [done|]. right. by repeat split.
Qed.

End scaler_more.

(** ** Pillow operations *)

Section pillow.
Context `{PIL.Rasterizers}.

Lemma convert_size m im : PIL.im_size (PIL.convert m im) = PIL.im_size im.
Proof. unfold PIL.convert. by case_decide. Qed.

Lemma convert_mode m im : PIL.mode (PIL.convert m im) = m.
Proof. unfold PIL.convert. by case_decide. Qed.

Lemma convert_same m im : PIL.mode im = m -> PIL.convert m im = im.
Proof. intros Hm. unfold PIL.convert. by case_decide. Qed.

(** Converting to [RGB] leaves no transparency behind: an image that had an
    alpha channel keeps its colours and gets the padding byte 255. *)
Lemma convert_RGB_drops_alpha im i j :
  PIL.mode im = PIL.RGBA ->
  PIL.getpixel (PIL.convert PIL.RGB im) i j = ((PIL.getpixel im i j).1, 255).
Proof. intros Hm. unfold PIL.convert. case_decide; [congruence|done]. Qed.

Lemma resize_ok im size r :
  PIL.resize im size = Ok r -> PIL.im_size r = size /\ PIL.mode r = PIL.mode im.
Proof.
  unfold PIL.resize. case_decide as Hs.
  - intros [= <-]. done.
  - destruct (_ || _); [done|]. by intros [= <-].
Qed.

Lemma resize_total im size :
  1 <= size.1 -> 1 <= size.2 -> exists r, PIL.resize im size = Ok r.
Proof.
  intros H1 H2. unfold PIL.resize. case_decide; [by eexists|].
  replace (size.1 <? 1) with false by (symmetry; apply Z.ltb_ge; lia).
  replace (size.2 <? 1) with false by (symmetry; apply Z.ltb_ge; lia).
  by eexists.
Qed.

Lemma byte_channel_opaque s :
  0 <= s <= 255 -> Z.shiftr (PIL.SHIFTFORDIV255 (s * 32640 + 16384)) 7 = s.
Proof.
  intros Hs.
  assert (Hall : forallb (fun n => Z.shiftr (PIL.SHIFTFORDIV255
                          (Z.of_nat n * 32640 + 16384)) 7 =? Z.of_nat n)
                         (seq 0 256) = true) by (vm_compute; reflexivity).
  rewrite forallb_forall in Hall.
  specialize (Hall (Z.to_nat s)). rewrite Z2Nat.id in Hall by lia.
  apply Z.eqb_eq, Hall, in_seq. lia.
Qed.

(** Where the upper layer is opaque it replaces the lower one. *)
Lemma composite_pixel_opaque dst src :
  PIL.pixel_range src -> PIL.alpha src = 255 -> PIL.composite_pixel dst src = src.
Proof.
  destruct dst as [[[dr dg] db] da], src as [[[sr sg] sb] sa].
  unfold PIL.pixel_range, PIL.byte_range, PIL.alpha. simpl fst; simpl snd.
  intros (Hr & Hg & Hb & _) ->. unfold PIL.composite_pixel.
  change (255 =? 0) with false. cbv iota.
  replace (da * (255 - 255)) with 0 by lia.
  change (255 * 255 * 255 * 128 / (255 * 255 + 0)) with 32640.
  change (255 * 128 - 32640) with 0. change (Z.shiftl 128 7) with 16384.
  cbv zeta. rewrite !Z.mul_0_r, !Z.add_0_r.
  rewrite !byte_channel_opaque by done. reflexivity.
Qed.

(** Where the upper layer is fully transparent the lower one shows. *)
Lemma composite_pixel_clear dst src :
  PIL.alpha src = 0 -> PIL.composite_pixel dst src = dst.
Proof.
  destruct dst as [[[dr dg] db] da], src as [[[sr sg] sb] sa].
  unfold PIL.alpha. simpl. by intros ->.
Qed.

End pillow.

(** ** Running computations *)

Section running.

(** Sequencing: the second computation runs in the world the first one left,
    unless the first one raised. *)
Lemma run_bind {A B} (c : M A) (f : A -> M B) (w : World) :
  (c ≫= f) w =
    match c w with
    | (Ok a, w') => f a w'
    | (Raise e, w') => (Raise e, w')
    end.
Proof. reflexivity. Qed.

Lemma run_for_each_cons {A} (x : A) (xs : list A) (body : A -> M unit) (w : World) :
  for_each (x :: xs) body w =
    match body x w with
    | (Ok _, w') => for_each xs body w'
    | (Raise e, w') => (Raise e, w')
    end.
Proof. reflexivity. Qed.

End running.

(** ** The store-screenshot pipeline *)

Section appstore.
Context `{PIL.Rasterizers}.
Import create_appstore_screenshots.

(** The pixels of the letterboxed canvas. *)
Lemma letterbox_getpixel (img_resized : PIL.Image) (new_w new_h i j : Z) :
  PIL.mode img_resized = PIL.RGB ->
  PIL.im_size img_resized = (new_w, new_h) ->
  PIL.getpixel (letterbox img_resized new_w new_h) i j =
    if PIL.in_box ((APPSTORE_WIDTH - new_w) / 2) ((APPSTORE_HEIGHT - new_h) / 2)
                  new_w new_h i j
    then PIL.getpixel img_resized (i - (APPSTORE_WIDTH - new_w) / 2)
                                  (j - (APPSTORE_HEIGHT - new_h) / 2)
    else black.
Proof.
  intros Hmode Hsize. unfold letterbox, PIL.paste. cbn [PIL.getpixel PIL.mode PIL.new].
  rewrite convert_same by done. by rewrite Hsize.
Qed.

(** C3. A scaled image of size [(new_w, new_h)] with [new_w <= W] and
    [new_h <= H] is pasted at [x = (W - new_w) // 2], [y = (H - new_h) // 2]
    on the black canvas: it lies on the canvas entirely, every pixel of the
    box is the image's, every other pixel is background, and the result
    measures 1284 x 2778. *)
Theorem letterbox_centered (img_resized : PIL.Image) (new_w new_h : Z) :
  PIL.mode img_resized = PIL.RGB ->
  PIL.im_size img_resized = (new_w, new_h) ->
  new_w <= APPSTORE_WIDTH -> new_h <= APPSTORE_HEIGHT ->
  let x := (APPSTORE_WIDTH - new_w) / 2 in
  let y := (APPSTORE_HEIGHT - new_h) / 2 in
  let canvas := letterbox img_resized new_w new_h in
  PIL.im_size canvas = (1284, 2778) /\
  0 <= x /\ x + new_w <= APPSTORE_WIDTH /\
  0 <= y /\ y + new_h <= APPSTORE_HEIGHT /\
  forall i j,
    PIL.getpixel canvas i j =
      if PIL.in_box x y new_w new_h i j
      then PIL.getpixel img_resized (i - x) (j - y)
      else black.
Proof.
  intros Hmode Hsize Hw Hh x y canvas.
  split; [done|].
  assert (0 <= x /\ x + new_w <= APPSTORE_WIDTH) as [??].
  { unfold x. pose proof (Z.div_pos (APPSTORE_WIDTH - new_w) 2).
    pose proof (Z.mul_div_le (APPSTORE_WIDTH - new_w) 2). lia. }
  assert (0 <= y /\ y + new_h <= APPSTORE_HEIGHT) as [??].
  { unfold y. pose proof (Z.div_pos (APPSTORE_HEIGHT - new_h) 2).
    pose proof (Z.mul_div_le (APPSTORE_HEIGHT - new_h) 2). lia. }
  repeat split; try done.
  intros i j. by apply letterbox_getpixel.
Qed.

Lemma letterbox_centered_witness :
  let img := PIL.new PIL.RGB (1284, 1284) (9, 9, 9, 255) in
  PIL.im_size (letterbox img 1284 1284) = (1284, 2778) /\
  0 <= 0 /\ 0 + 1284 <= APPSTORE_WIDTH /\
  0 <= 747 /\ 747 + 1284 <= APPSTORE_HEIGHT /\
  forall i j,
    PIL.getpixel (letterbox img 1284 1284) i j =
      if PIL.in_box 0 747 1284 1284 i j
      then PIL.getpixel img (i - 0) (j - 747)
      else black.
Proof.
  apply (letterbox_centered (PIL.new PIL.RGB (1284, 1284) (9, 9, 9, 255)) 1284 1284);
    [reflexivity | reflexivity | unfold APPSTORE_WIDTH; lia | unfold APPSTORE_HEIGHT; lia].
Defined.

(** The steps of [render], once the scaled size is known to be positive. *)
Lemma render_steps (opened : PIL.Image) w h new_w new_h :
  PIL.im_size opened = (w, h) ->
  scaled_dimensions w h = Ok (new_w, new_h) ->
  1 <= new_w -> 1 <= new_h ->
  exists img_resized,
    PIL.resize (PIL.convert PIL.RGB opened) (new_w, new_h) = Ok img_resized /\
    PIL.mode img_resized = PIL.RGB /\
    PIL.im_size img_resized = (new_w, new_h) /\
    render opened = Ok (letterbox img_resized new_w new_h).
Proof.
  intros Hsize Hdims Hw Hh.
  destruct (resize_total (PIL.convert PIL.RGB opened) (new_w, new_h)) as [r Hr]; [done..|].
  exists r. destruct (resize_ok _ _ _ Hr) as [Hrs Hrm].
  rewrite convert_mode in Hrm.
  repeat split; try done.
  unfold render. rewrite convert_size, Hsize, Hdims. cbn [mbind result_bind].
  by rewrite Hr.
Qed.

(** What [render] returns, whenever it returns. *)
Lemma render_inv (opened canvas : PIL.Image) :
  render opened = Ok canvas ->
  exists new_w new_h img_resized,
    scaled_dimensions (PIL.im_size opened).1 (PIL.im_size opened).2 = Ok (new_w, new_h) /\
    PIL.resize (PIL.convert PIL.RGB opened) (new_w, new_h) = Ok img_resized /\
    PIL.mode img_resized = PIL.RGB /\
    PIL.im_size img_resized = (new_w, new_h) /\
    canvas = letterbox img_resized new_w new_h.
Proof.
  unfold render. rewrite convert_size.
  destruct (PIL.im_size opened) as [w h]. cbn [fst snd].
  destruct (scaled_dimensions w h) as [[new_w new_h]|e]; [|done].
  cbn [mbind result_bind].
  destruct (PIL.resize _ _) as [r|e] eqn:Hr; [|done].
  cbn [mbind result_bind]. intros [= <-].
  destruct (resize_ok _ _ _ Hr) as [Hrs Hrm]. rewrite convert_mode in Hrm.
  by exists new_w, new_h, r.
Qed.

(** C8. A 1000 x 1000 source: the scale [1284 / 1000] is the double nearest
    to 1.284, the height [int(1000 * scale)] is 1284, which does not exceed
    2778, so the width-first branch is kept and the new size is (1284, 1284);
    the image is pasted at [y = (2778 - 1284) // 2 = 747], which leaves 747
    black rows above it and 747 below. *)
Theorem square_source_example (opened : PIL.Image) :
  PIL.im_size opened = (1000, 1000) ->
  exists scale hs img_resized canvas,
    int_truediv APPSTORE_WIDTH 1000 = Ok scale /\
    ((1284 # 1000) - (1 # 9007199254740992) <= SF2Q scale)%Q /\
    (SF2Q scale <= (1284 # 1000) + (1 # 9007199254740992))%Q /\
    int_mul_float 1000 scale = Ok hs /\ int_of_float hs = Ok 1284 /\
    (1284 >? APPSTORE_HEIGHT) = false /\
    scaled_dimensions 1000 1000 = Ok (1284, 1284) /\
    PIL.resize (PIL.convert PIL.RGB opened) (1284, 1284) = Ok img_resized /\
    render opened = Ok canvas /\
    PIL.im_size canvas = (1284, 2778) /\
    (APPSTORE_WIDTH - 1284) / 2 = 0 /\ (APPSTORE_HEIGHT - 1284) / 2 = 747 /\
    2778 - (747 + 1284) = 747 /\
    forall i j,
      PIL.getpixel canvas i j =
        if PIL.in_box 0 747 1284 1284 i j
        then PIL.getpixel img_resized i (j - 747)
        else black.
Proof.
  intros Hsize.
  assert (Hdims : scaled_dimensions 1000 1000 = Ok (1284, 1284))
    by (vm_compute; reflexivity).
  destruct (render_steps opened 1000 1000 1284 1284 Hsize Hdims)
    as (r & Hr & Hrm & Hrs & Hrender); [lia..|].
  eexists _, _, r, _.
  split; [vm_compute; reflexivity|].
  split; [vm_compute; discriminate|].
  split; [vm_compute; discriminate|].
  split; [vm_compute; reflexivity|].
  split; [vm_compute; reflexivity|].
  repeat split; try done.
  intros i j. rewrite (letterbox_getpixel r 1284 1284 i j Hrm Hrs).
  change ((APPSTORE_WIDTH - 1284) / 2) with 0.
  change ((APPSTORE_HEIGHT - 1284) / 2) with 747.
  by rewrite Z.sub_0_r.
Qed.

(** C10. Whatever [create_appstore_screenshot] saves is an [RGB] image (a
    mode without transparency) of the store size; it was obtained by
    resizing the [RGB] conversion of the opened file, in which an alpha
    channel of the source is replaced by the padding byte, and every pixel
    outside the pasted box is black, (0, 0, 0). *)
Theorem saved_screenshot_opaque (screenshot_path output_path : string) (w w' : World) :
  create_appstore_screenshot screenshot_path output_path w = (Ok tt, w') ->
  exists opened new_w new_h img_resized canvas,
    fs w !! screenshot_path = Some (ImageFile opened) /\
    fs w' !! output_path = Some (ImageFile canvas) /\
    PIL.mode canvas = PIL.RGB /\
    PIL.im_size canvas = (1284, 2778) /\
    PIL.mode (PIL.convert PIL.RGB opened) = PIL.RGB /\
    (PIL.mode opened = PIL.RGBA -> forall i j,
       PIL.getpixel (PIL.convert PIL.RGB opened) i j
         = ((PIL.getpixel opened i j).1, 255)) /\
    PIL.resize (PIL.convert PIL.RGB opened) (new_w, new_h) = Ok img_resized /\
    PIL.mode img_resized = PIL.RGB /\
    canvas = letterbox img_resized new_w new_h /\
    forall i j,
      PIL.in_box ((APPSTORE_WIDTH - new_w) / 2) ((APPSTORE_HEIGHT - new_h) / 2)
                 new_w new_h i j = false ->
      PIL.getpixel canvas i j = (0, 0, 0, 255).
Proof.
  unfold create_appstore_screenshot. rewrite run_bind. unfold Image_open.
  destruct (fs w !! screenshot_path) as [[|opened|]|] eqn:Hopen; try done.
  rewrite run_bind. unfold lift.
  destruct (render opened) as [canvas|e] eqn:Hrender; [|done].
  destruct (render_inv _ _ Hrender) as (nw & nh & r & Hdims & Hr & Hrm & Hrs & ->).
  rewrite run_bind. unfold Image_save, print. intros Hrun.
  assert (Hw' : fs w' = <[output_path := ImageFile (letterbox r nw nh)]> (fs w)).
  { destruct (fs w !! output_path) as [[| |]|]; by inversion Hrun. }
  exists opened, nw, nh, r, (letterbox r nw nh).
  split; [done|]. split; [by rewrite Hw', lookup_insert_eq|].
  split; [done|]. split; [done|].
  split; [apply convert_mode|].
  split; [by intros; apply convert_RGB_drops_alpha|].
  split; [done|]. split; [done|]. split; [done|].
  intros i j Hbox. by rewrite (letterbox_getpixel r nw nh i j Hrm Hrs), Hbox.
Qed.

End appstore.

(** ** The mockup pipeline *)

Section mockups.
Context `{PIL.Rasterizers}.
Import create_mockups.

Lemma add_rounded_corners_ok (img : PIL.Image) (radius : Z) :
  exists masked,
    add_rounded_corners img radius = Ok masked /\
    PIL.mode masked = PIL.RGBA /\
    PIL.im_size masked = PIL.im_size img /\
    forall i j,
      PIL.getpixel masked i j =
        ((PIL.getpixel (PIL.convert PIL.RGBA img) i j).1,
         if PIL.rounded_rectangle_covers (0, 0) (PIL.im_size img) radius i j
         then 255 else 0).
Proof.
  unfold add_rounded_corners, PIL.putalpha.
  cbn [PIL.band_size PIL.rounded_rectangle PIL.new_L].
  case_decide; [|done]. eexists. split; [done|]. by cbn.
Qed.

(** The stretch always succeeds, and the canvas is built from its result. *)
Lemma stretch_steps (screenshot : PIL.Image) :
  exists screenshot_resized,
    PIL.resize screenshot (SCREEN_RIGHT - SCREEN_LEFT, SCREEN_BOTTOM - SCREEN_TOP)
      = Ok screenshot_resized /\
    PIL.im_size screenshot_resized = (1178, 2555) /\
    forall bezel,
      screen_canvas bezel screenshot =
        (masked ← add_rounded_corners screenshot_resized CORNER_RADIUS;
         Ok (PIL.paste (PIL.new PIL.RGBA (PIL.im_size bezel) transparent)
                       masked (SCREEN_LEFT, SCREEN_TOP))).
Proof.
  destruct (resize_total screenshot (SCREEN_RIGHT - SCREEN_LEFT, SCREEN_BOTTOM - SCREEN_TOP))
    as [r Hr]; [done..|].
  exists r. split; [done|]. split; [by destruct (resize_ok _ _ _ Hr)|].
  intros bezel. unfold screen_canvas. by rewrite Hr.
Qed.

(** C4. Whatever the size of the screenshot, it is resized to the size of the
    screen region, [(right - left, bottom - top)] = (1178, 2555), given by
    the constants 90, 90, 1268 and 2645; the size of the source plays no
    part, so its aspect ratio is not kept. *)
Theorem screenshot_stretched_to_screen (screenshot : PIL.Image) :
  (SCREEN_LEFT, SCREEN_TOP, SCREEN_RIGHT, SCREEN_BOTTOM) = (90, 90, 1268, 2645) /\
  (SCREEN_RIGHT - SCREEN_LEFT, SCREEN_BOTTOM - SCREEN_TOP) = (1178, 2555) /\
  exists screenshot_resized,
    PIL.resize screenshot (SCREEN_RIGHT - SCREEN_LEFT, SCREEN_BOTTOM - SCREEN_TOP)
      = Ok screenshot_resized /\
    PIL.im_size screenshot_resized = (1178, 2555) /\
    forall bezel,
      screen_canvas bezel screenshot =
        (masked ← add_rounded_corners screenshot_resized CORNER_RADIUS;
         Ok (PIL.paste (PIL.new PIL.RGBA (PIL.im_size bezel) transparent)
                       masked (SCREEN_LEFT, SCREEN_TOP))).
Proof.
  split; [done|]. split; [done|].
  destruct (stretch_steps screenshot) as (r & Hr & Hrs & Hcanvas). by exists r.
Qed.

(** C5. The canvas is transparent and has the size of the frame; the masked
    screenshot is pasted at (90, 90); the frame is then composited over that
    canvas: where the frame is opaque the result is the frame's pixel, where
    the frame is fully transparent the result is the canvas's pixel.  The
    result has the size of the frame. *)
Theorem frame_composited_on_top (bezel_file screenshot : PIL.Image) :
  let bezel := PIL.convert PIL.RGBA bezel_file in
  exists screenshot_resized masked canvas result,
    PIL.resize screenshot (1178, 2555) = Ok screenshot_resized /\
    add_rounded_corners screenshot_resized 110 = Ok masked /\
    screen_canvas bezel screenshot = Ok canvas /\
    composite bezel screenshot = Ok result /\
    PIL.alpha_composite canvas bezel = Ok result /\
    PIL.im_size canvas = PIL.im_size bezel /\
    PIL.im_size result = PIL.im_size bezel_file /\
    (forall i j,
       PIL.getpixel canvas i j =
         if PIL.in_box 90 90 1178 2555 i j
         then PIL.getpixel masked (i - 90) (j - 90)
         else (0, 0, 0, 0)) /\
    (forall i j,
       PIL.getpixel result i j =
         PIL.composite_pixel (PIL.getpixel canvas i j) (PIL.getpixel bezel i j)) /\
    (forall i j,
       PIL.pixel_range (PIL.getpixel bezel i j) ->
       PIL.alpha (PIL.getpixel bezel i j) = 255 ->
       PIL.getpixel result i j = PIL.getpixel bezel i j) /\
    (forall i j,
       PIL.alpha (PIL.getpixel bezel i j) = 0 ->
       PIL.getpixel result i j = PIL.getpixel canvas i j).
Proof.
  intros bezel.
  destruct (stretch_steps screenshot) as (r & Hr & Hrs & Hcanvas).
  destruct (add_rounded_corners_ok r CORNER_RADIUS) as (masked & Hmasked & Hmm & Hms & _).
  specialize (Hcanvas bezel). rewrite Hmasked in Hcanvas. cbn [mbind result_bind] in Hcanvas.
  set (canvas := PIL.paste _ masked _) in Hcanvas.
  assert (Hcomp : exists result, PIL.alpha_composite canvas bezel = Ok result /\
            PIL.im_size result = PIL.im_size bezel /\
            forall i j, PIL.getpixel result i j =
              PIL.composite_pixel (PIL.getpixel canvas i j) (PIL.getpixel bezel i j)).
  { unfold PIL.alpha_composite. case_decide as Hd; [by eexists|].
    destruct Hd. repeat split; try done. apply convert_mode. }
  destruct Hcomp as (result & Hresult & Hsize & Hpx).
  exists r, masked, canvas, result.
  split; [exact Hr|]. split; [exact Hmasked|]. split; [exact Hcanvas|].
  split; [by unfold composite; rewrite Hcanvas|].
  split; [done|]. split; [done|].
  split; [by rewrite Hsize; apply convert_size|].
  split.
  { intros i j. unfold canvas, PIL.paste. cbn [PIL.getpixel PIL.mode PIL.new].
    rewrite convert_same by done. by rewrite Hms, Hrs. }
  split; [done|]. split.
  - intros i j Hrange Halpha. rewrite Hpx. by apply composite_pixel_opaque.
  - intros i j Halpha. rewrite Hpx. by apply composite_pixel_clear.
Qed.

End mockups.

(** ** The batch runners *)

Section batch.
Context `{PIL.Rasterizers}.
Variable SCRIPT_DIR : string.

(** One step of a computation that starts with [print] or [os.path.exists]. *)
Lemma run_print_bind {B} line (f : unit -> M B) w :
  (print line ≫= f) w = f tt {| fs := fs w; stdout := stdout w ++ [line] |}.
Proof. reflexivity. Qed.

Lemma run_path_exists_bind {B} path (f : bool -> M B) w :
  (path_exists path ≫= f) w = f (bool_decide (is_Some (fs w !! path))) w.
Proof. reflexivity. Qed.

Lemma missing_not_found path (w : World) :
  fs w !! path = None -> bool_decide (is_Some (fs w !! path)) = false.
Proof. intros ->. apply bool_decide_eq_false. by intros [? ?]. Qed.

Lemma appstore_body_missing output_dir name w :
  fs w !! path_join SCRIPT_DIR name = None ->
  create_appstore_screenshots.main_body SCRIPT_DIR output_dir name w
    = (Ok tt, skipped name w).
Proof.
  intros Hmiss. unfold create_appstore_screenshots.main_body.
  by rewrite run_path_exists_bind, missing_not_found.
Qed.

Lemma mockups_body_missing name w :
  fs w !! path_join SCRIPT_DIR name = None ->
  create_mockups.main_body SCRIPT_DIR name w = (Ok tt, skipped name w).
Proof.
  intros Hmiss. unfold create_mockups.main_body.
  by rewrite run_path_exists_bind, missing_not_found.
Qed.

(** C6. If the file of the frame is missing, [main] of the mockup script
    prints its two headers and the error, touches no file and processes no
    screenshot; it returns to its caller in the ordinary way, raising
    nothing. *)
Theorem mockups_main_without_bezel (w : World) :
  fs w !! create_mockups.BEZEL_PATH SCRIPT_DIR = None ->
  create_mockups.main SCRIPT_DIR w =
    (Ok tt,
     {| fs := fs w;
        stdout := stdout w ++
          ["Creating iPhone mockups...";
           "Bezel: " +:+ create_mockups.BEZEL_PATH SCRIPT_DIR;
           "Error: Bezel not found at " +:+ create_mockups.BEZEL_PATH SCRIPT_DIR] |}).
Proof.
  intros Hmiss. unfold create_mockups.main.
  rewrite !run_print_bind, run_path_exists_bind. cbn [fs stdout].
  rewrite missing_not_found by done. unfold print. cbn [negb fs stdout].
  by rewrite <- !app_assoc.
Qed.

(** C7. An entry of the manifest whose file does not exist is skipped by
    both runners: the only effect is the line that reports it, nothing is
    raised, and the loop goes on with the remaining entries in an unchanged
    file system. *)
Theorem missing_source_skipped (name : string) (rest : list string) (w : World) :
  fs w !! path_join SCRIPT_DIR name = None ->
  fs (skipped name w) = fs w /\
  stdout (skipped name w) = stdout w ++ ["Skipping " +:+ name +:+ " - not found"] /\
  (forall output_dir,
     create_appstore_screenshots.main_body SCRIPT_DIR output_dir name w
       = (Ok tt, skipped name w) /\
     for_each (name :: rest) (create_appstore_screenshots.main_body SCRIPT_DIR output_dir) w
       = for_each rest (create_appstore_screenshots.main_body SCRIPT_DIR output_dir)
                  (skipped name w)) /\
  create_mockups.main_body SCRIPT_DIR name w = (Ok tt, skipped name w) /\
  for_each (name :: rest) (create_mockups.main_body SCRIPT_DIR) w
    = for_each rest (create_mockups.main_body SCRIPT_DIR) (skipped name w).
Proof.
  intros Hmiss. split; [done|]. split; [done|]. split; [|split].
  - intros output_dir. split; [by apply appstore_body_missing|].
    by rewrite run_for_each_cons, appstore_body_missing.
  - by apply mockups_body_missing.
  - by rewrite run_for_each_cons, mockups_body_missing.
Qed.

End batch.

(** ** Runs that complete *)

Section effects.
Context `{PIL.Rasterizers}.

(** What a completed computation tells about its first step. *)
Lemma run_image_open_bind {B} path (f : PIL.Image -> M B) w r w' :
  (Image_open path ≫= f) w = (Ok r, w') ->
  exists im, fs w !! path = Some (ImageFile im) /\ f im w = (Ok r, w').
Proof.
  rewrite run_bind. unfold Image_open.
  destruct (fs w !! path) as [[|im|]|]; try done. by exists im.
Qed.

Lemma run_lift_bind {A B} (c : result A) (f : A -> M B) w r w' :
  (lift c ≫= f) w = (Ok r, w') -> exists a, c = Ok a /\ f a w = (Ok r, w').
Proof. rewrite run_bind. unfold lift. destruct c as [a|e]; [|done]. by exists a. Qed.

Lemma run_image_save_bind {B} im path (f : unit -> M B) w r w' :
  (Image_save im path ≫= f) w = (Ok r, w') ->
  f tt {| fs := <[path := ImageFile im]> (fs w); stdout := stdout w |} = (Ok r, w').
Proof.
  rewrite run_bind. unfold Image_save.
  by destruct (fs w !! path) as [[| |]|].
Qed.

Lemma create_mockup_wrote bezel_path screenshot_path output_path w w' :
  create_mockups.create_mockup bezel_path screenshot_path output_path w = (Ok tt, w') ->
  wrote output_path w w'.
Proof.
  unfold create_mockups.create_mockup. intros Hrun.
  apply run_image_open_bind in Hrun as (bezel & _ & Hrun).
  apply run_image_open_bind in Hrun as (screenshot & _ & Hrun).
  rewrite !run_print_bind in Hrun.
  apply run_lift_bind in Hrun as (result & _ & Hrun).
  apply run_image_save_bind in Hrun.
  unfold print in Hrun. injection Hrun as <-. cbn [fs stdout]. split.
  - by exists result.
  - rewrite <- !app_assoc. by eexists.
Qed.

Lemma create_appstore_screenshot_wrote screenshot_path output_path w w' :
  create_appstore_screenshots.create_appstore_screenshot screenshot_path output_path w
    = (Ok tt, w') ->
  wrote output_path w w'.
Proof.
  unfold create_appstore_screenshots.create_appstore_screenshot. intros Hrun.
  apply run_image_open_bind in Hrun as (opened & _ & Hrun).
  apply run_lift_bind in Hrun as (canvas & _ & Hrun).
  apply run_image_save_bind in Hrun.
  unfold print in Hrun. injection Hrun as <-. cbn [fs stdout]. split.
  - by exists canvas.
  - by eexists.
Qed.

(** What [create_mockup] saves is the composite of the two opened files,
    both converted to [RGBA]. *)
Lemma saved_mockup_composite bezel_path screenshot_path output_path w w' :
  create_mockups.create_mockup bezel_path screenshot_path output_path w = (Ok tt, w') ->
  exists bezel_file screenshot_file result,
    fs w !! bezel_path = Some (ImageFile bezel_file) /\
    fs w !! screenshot_path = Some (ImageFile screenshot_file) /\
    create_mockups.composite (PIL.convert PIL.RGBA bezel_file)
                             (PIL.convert PIL.RGBA screenshot_file) = Ok result /\
    fs w' !! output_path = Some (ImageFile result) /\
    PIL.im_size result = PIL.im_size bezel_file.
Proof.
  unfold create_mockups.create_mockup. intros Hrun.
  apply run_image_open_bind in Hrun as (bezel & Hbezel & Hrun).
  apply run_image_open_bind in Hrun as (screenshot & Hscreenshot & Hrun).
  rewrite !run_print_bind in Hrun. cbn [fs] in Hscreenshot.
  apply run_lift_bind in Hrun as (result & Hresult & Hrun).
  apply run_image_save_bind in Hrun.
  unfold print in Hrun. injection Hrun as <-. cbn [fs stdout].
  exists bezel, screenshot, result.
  split; [done|]. split; [done|]. split; [done|].
  split; [by rewrite lookup_insert_eq|].
  unfold create_mockups.composite in Hresult.
  destruct (create_mockups.screen_canvas _ _) as [canvas|e] eqn:Hcanvas; [|done].
  cbn [mbind result_bind] in Hresult. unfold PIL.alpha_composite in Hresult.
  case_decide as Hd; [|done]. injection Hresult as <-. cbn [PIL.im_size].
  destruct Hd as (_ & _ & ->). apply convert_size.
Qed.

End effects.

(** A loop whose body skips a missing input and otherwise writes one image. *)
Section loop.
Variable body : string -> M unit.
Variables input output : string -> string.
Hypothesis body_missing : forall name w,
  fs w !! input name = None -> body name w = (Ok tt, skipped name w).
Hypothesis body_present : forall name w w',
  is_Some (fs w !! input name) -> body name w = (Ok tt, w') ->
  wrote (output name) w w'.

Lemma wrote_is_image output_path w w' : wrote output_path w w' -> is_image w' output_path.
Proof. intros [[im Hfs] _]. exists im. by rewrite Hfs, lookup_insert_eq. Qed.

Lemma wrote_keeps_image output_path w w' path :
  wrote output_path w w' -> is_image w path -> is_image w' path.
Proof.
  intros [[im Hfs] _] [im' Him']. unfold is_image. rewrite Hfs.
  destruct (decide (output_path = path)) as [->|Hne].
  - exists im. by rewrite lookup_insert_eq.
  - exists im'. by rewrite lookup_insert_ne.
Qed.

Lemma wrote_other output_path w w' path :
  wrote output_path w w' -> path <> output_path -> fs w' !! path = fs w !! path.
Proof. intros [[im Hfs] _] Hne. rewrite Hfs. by rewrite lookup_insert_ne. Qed.

Lemma loop_outcome names : forall w w',
  (forall n n', n ∈ names -> n' ∈ names -> input n <> output n') ->
  for_each names body w = (Ok tt, w') ->
  (forall path, is_image w path -> is_image w' path) /\
  (forall line, line ∈ stdout w -> line ∈ stdout w') /\
  forall name, name ∈ names ->
    (fs w !! input name = None ->
     "Skipping " +:+ name +:+ " - not found" ∈ stdout w') /\
    (is_Some (fs w !! input name) -> is_image w' (output name)).
Proof using body_missing body_present.
  induction names as [|n names IH]; intros w w' Hdisj Hrun.
  - injection Hrun as <-. split; [done|]. split; [done|].
    intros name Hin. by apply elem_of_nil in Hin.
  - rewrite run_for_each_cons in Hrun.
    destruct (body n w) as [[[]|e] w1] eqn:Hbody; [|done].
    destruct (IH w1 w') as (Himg & Hout & Hnames); [|done|].
    { intros a b Ha Hb. apply Hdisj; by apply elem_of_cons; right. }
    assert (Hstep : (fs w !! input n = None /\ w1 = skipped n w) \/
                    (is_Some (fs w !! input n) /\ wrote (output n) w w1)).
    { destruct (fs w !! input n) as [e|] eqn:Hin.
      - right. split; [by eexists|]. apply body_present; [|done]. by rewrite Hin.
      - left. split; [done|]. rewrite body_missing in Hbody by done. by injection Hbody. }
    assert (Hsame : forall m, m ∈ n :: names -> fs w1 !! input m = fs w !! input m).
    { intros m Hm. destruct Hstep as [[_ ->]|[_ Hw]]; [done|].
      eapply wrote_other; [done|]. apply Hdisj; [done|]. by apply elem_of_cons; left. }
    assert (Hlines : forall line, line ∈ stdout w -> line ∈ stdout w1).
    { intros line Hl. destruct Hstep as [[_ ->]|[_ [_ [l ->]]]];
        cbn [stdout skipped]; apply elem_of_app; by left. }
    split; [|split].
    + intros path Hp. apply Himg. destruct Hstep as [[_ ->]|[_ Hw]]; [done|].
      by eapply wrote_keeps_image.
    + intros line Hl. by apply Hout, Hlines.
    + intros name Hin. apply elem_of_cons in Hin as [->|Hin].
      * split.
        -- intros Hmiss. apply Hout. destruct Hstep as [[_ ->]|[[? Hs] _]]; [|congruence].
           cbn [stdout skipped]. apply elem_of_app. right. by apply list_elem_of_singleton.
        -- intros Hsome. apply Himg. destruct Hstep as [[Hn _]|[_ Hw]].
           { rewrite Hn in Hsome. by destruct Hsome. }
           by eapply wrote_is_image.
      * rewrite <- (Hsame name) by (by apply elem_of_cons; right). by apply Hnames.
Qed.

End loop.

Section paths.

(** Paths below the same directory differ when their names differ. *)
Lemma append_assoc (a b c : string) : (a +:+ b) +:+ c = a +:+ (b +:+ c).
Proof.
  induction a as [|x a IH]; [done|].
  change (String x ((a +:+ b) +:+ c) = String x (a +:+ (b +:+ c))). by rewrite IH.
Qed.

Lemma path_join_inj dir a b : path_join dir a = path_join dir b -> a = b.
Proof. unfold path_join. intros Heq. by do 2 apply String.app_inj in Heq. Qed.

Lemma path_join_nested dir sub name :
  path_join (path_join dir sub) name = path_join dir (sub +:+ "/" +:+ name).
Proof. unfold path_join. by rewrite !append_assoc. Qed.

End paths.

Section completed.
Context `{PIL.Rasterizers}.
Variable SCRIPT_DIR : string.

Lemma wrote_after_print output line w w' :
  wrote output {| fs := fs w; stdout := stdout w ++ [line] |} w' -> wrote output w w'.
Proof.
  intros [Hfs [lines Hout]]. split; [done|].
  exists (line :: lines). cbn [stdout] in Hout. by rewrite Hout, <- app_assoc.
Qed.

Lemma present_found path (w : World) :
  is_Some (fs w !! path) -> bool_decide (is_Some (fs w !! path)) = true.
Proof. apply bool_decide_eq_true_2. Qed.

Lemma mockups_body_present name w w' :
  is_Some (fs w !! path_join SCRIPT_DIR name) ->
  create_mockups.main_body SCRIPT_DIR name w = (Ok tt, w') ->
  wrote (path_join SCRIPT_DIR (create_mockups.output_name name)) w w'.
Proof.
  intros Hin. unfold create_mockups.main_body.
  rewrite run_path_exists_bind, present_found by done. cbn [negb].
  rewrite run_print_bind. intros Hrun.
  eapply wrote_after_print, create_mockup_wrote, Hrun.
Qed.

Lemma appstore_body_present output_dir name w w' :
  is_Some (fs w !! path_join SCRIPT_DIR name) ->
  create_appstore_screenshots.main_body SCRIPT_DIR output_dir name w = (Ok tt, w') ->
  wrote (path_join output_dir (create_appstore_screenshots.output_name name)) w w'.
Proof.
  intros Hin. unfold create_appstore_screenshots.main_body.
  rewrite run_path_exists_bind, present_found by done. cbn [negb].
  rewrite run_print_bind. intros Hrun.
  eapply wrote_after_print, create_appstore_screenshot_wrote, Hrun.
Qed.

(** No output of a script is an input of the same script. *)
Lemma mockups_paths_apart n n' :
  n ∈ create_mockups.SCREENSHOTS -> n' ∈ create_mockups.SCREENSHOTS ->
  path_join SCRIPT_DIR n <> path_join SCRIPT_DIR (create_mockups.output_name n').
Proof.
  intros Hn Hn' Heq%path_join_inj. revert n n' Hn Hn' Heq.
  assert (Hall : Forall (fun n => Forall (fun n' => n <> create_mockups.output_name n')
                                         create_mockups.SCREENSHOTS)
                        create_mockups.SCREENSHOTS) by compute_done.
  intros n n' Hn Hn'. rewrite Forall_forall in Hall.
  specialize (Hall n Hn). rewrite Forall_forall in Hall. by apply Hall.
Qed.

Lemma appstore_paths_apart n n' :
  n ∈ create_appstore_screenshots.SCREENSHOTS ->
  n' ∈ create_appstore_screenshots.SCREENSHOTS ->
  path_join SCRIPT_DIR n <>
    path_join (path_join SCRIPT_DIR "appstore") (create_appstore_screenshots.output_name n').
Proof.
  rewrite path_join_nested. intros Hn Hn' Heq%path_join_inj. revert n n' Hn Hn' Heq.
  assert (Hall : Forall (fun n => Forall (fun n' =>
                   n <> "appstore" +:+ "/" +:+ create_appstore_screenshots.output_name n')
                     create_appstore_screenshots.SCREENSHOTS)
                   create_appstore_screenshots.SCREENSHOTS) by compute_done.
  intros n n' Hn Hn'. rewrite Forall_forall in Hall.
  specialize (Hall n Hn). rewrite Forall_forall in Hall. by apply Hall.
Qed.

Lemma appstore_dir_apart n :
  n ∈ create_appstore_screenshots.SCREENSHOTS ->
  path_join SCRIPT_DIR n <> path_join SCRIPT_DIR "appstore".
Proof.
  intros Hn Heq%path_join_inj. revert n Hn Heq.
  assert (Hall : Forall (fun n => n <> "appstore") create_appstore_screenshots.SCREENSHOTS)
    by compute_done.
  intros n Hn. rewrite Forall_forall in Hall. by apply Hall.
Qed.

(** X17. A run of the mockup script that completes: every entry of the manifest
    that was missing has been reported, every entry that was present has its
    mockup. *)
Theorem mockups_completed_run (w w' : World) :
  create_mockups.main SCRIPT_DIR w = (Ok tt, w') ->
  is_Some (fs w !! create_mockups.BEZEL_PATH SCRIPT_DIR) ->
  forall name, name ∈ create_mockups.SCREENSHOTS ->
    (fs w !! path_join SCRIPT_DIR name = None ->
     "Skipping " +:+ name +:+ " - not found" ∈ stdout w') /\
    (is_Some (fs w !! path_join SCRIPT_DIR name) ->
     is_image w' (path_join SCRIPT_DIR (create_mockups.output_name name))).
Proof.
  unfold create_mockups.main. rewrite !run_print_bind, run_path_exists_bind.
  cbn [fs]. intros Hrun Hbezel. rewrite present_found in Hrun by done. cbn [negb] in Hrun.
  rewrite run_bind in Hrun.
  destruct (for_each _ _ _) as [[[]|e] w1] eqn:Hloop; [|done].
  unfold print in Hrun. injection Hrun as <-.
  apply (loop_outcome _ (path_join SCRIPT_DIR)
           (fun n => path_join SCRIPT_DIR (create_mockups.output_name n)))
    in Hloop as (_ & _ & Hnames).
  - intros name Hin. destruct (Hnames name Hin) as [Hskip Hdone]. cbn [fs stdout] in *.
    split; [|done]. intros Hmiss. apply elem_of_app. left. by apply Hskip.
  - intros. by apply mockups_body_missing.
  - intros. by apply mockups_body_present.
  - apply mockups_paths_apart.
Qed.

(** X8. A run of the store script that completes: every entry of the manifest
    that was missing has been reported, every entry that was present has its
    image in the [appstore] directory. *)
Theorem appstore_completed_run (w w' : World) :
  create_appstore_screenshots.main SCRIPT_DIR w = (Ok tt, w') ->
  forall name, name ∈ create_appstore_screenshots.SCREENSHOTS ->
    (fs w !! path_join SCRIPT_DIR name = None ->
     "Skipping " +:+ name +:+ " - not found" ∈ stdout w') /\
    (is_Some (fs w !! path_join SCRIPT_DIR name) ->
     is_image w' (path_join (path_join SCRIPT_DIR "appstore")
                            (create_appstore_screenshots.output_name name))).
Proof.
  unfold create_appstore_screenshots.main. rewrite !run_print_bind.
  intros Hrun. rewrite run_bind in Hrun.
  destruct (makedirs _ _) as [[[]|e] w0] eqn:Hdir; [|done].
  assert (Hw0 : forall name, name ∈ create_appstore_screenshots.SCREENSHOTS ->
            fs w0 !! path_join SCRIPT_DIR name = fs w !! path_join SCRIPT_DIR name).
  { intros name Hin. unfold makedirs in Hdir. cbn [fs stdout] in Hdir.
    destruct (fs w !! path_join SCRIPT_DIR "appstore") as [[| |]|];
      try done; injection Hdir as <-; cbn [fs]; [done|].
    rewrite lookup_insert_ne; [done|]. intros Heq. by eapply appstore_dir_apart. }
  rewrite run_bind in Hrun.
  destruct (for_each _ _ _) as [[[]|e] w1] eqn:Hloop; [|done].
  unfold print in Hrun. injection Hrun as <-.
  apply (loop_outcome _ (path_join SCRIPT_DIR)
           (fun n => path_join (path_join SCRIPT_DIR "appstore")
                       (create_appstore_screenshots.output_name n)))
    in Hloop as (_ & _ & Hnames).
  - intros name Hin. destruct (Hnames name Hin) as [Hskip Hdone]. cbn [fs stdout] in *.
    rewrite Hw0 in Hskip, Hdone by done.
    split; [|done]. intros Hmiss. apply elem_of_app. left. by apply Hskip.
  - intros. by apply appstore_body_missing.
  - intros. by apply appstore_body_present.
  - apply appstore_paths_apart.
Qed.

End completed.

(** ** Sources the store pipeline rejects or accepts *)

Section render_more.
Context `{PIL.Rasterizers}.
Import create_appstore_screenshots.

(** X4. A source more than 1284 times as wide as it is high is scaled to the
    height 0, and the resize raises: such a screenshot stops the script. *)
Theorem very_wide_source_raises (opened : PIL.Image) w h :
  PIL.im_size opened = (w, h) ->
  0 < h -> 1285 * h <= w -> w < 2 ^ 53 ->
  scaled_dimensions w h = Ok (1284, 0) /\ render opened = Raise ValueError.
Proof.
  intros Hsize Hh Hratio Hw.
  destruct (scaled_dimensions_cases w h ltac:(lia) ltac:(lia)) as (t & Hup & Hlow & Hcases).
  pose proof (slack_upper t w 1284 h 1284 1285 ltac:(lia) ltac:(lia) Hup ltac:(lia)) as Hu.
  pose proof (slack_lower t w 1284 h 0 1 ltac:(lia) ltac:(lia) Hlow ltac:(lia)) as Hl.
  unfold rounding_slack in Hu, Hl.
  assert (t = 0) as -> by lia.
  destruct Hcases as [[_ Heq]|[Hgt _]]; [|lia].
  split; [done|].
  unfold render. rewrite convert_size, Hsize, Heq. cbn [mbind result_bind].
  unfold PIL.resize. rewrite convert_size, Hsize.
  case_decide as Hd; [injection Hd; lia|]. reflexivity.
Qed.


End render_more.

(** ** What the two pipelines write *)

Section pipelines_more.
Context `{PIL.Rasterizers}.

Lemma create_appstore_screenshot_run screenshot_path output_path w opened canvas :
  fs w !! screenshot_path = Some (ImageFile opened) ->
  create_appstore_screenshots.render opened = Ok canvas ->
  fs w !! output_path <> Some Directory ->
  create_appstore_screenshots.create_appstore_screenshot screenshot_path output_path w =
    (Ok tt,
     {| fs := <[output_path := ImageFile canvas]> (fs w);
        stdout := stdout w ++ ["  Saved: " +:+ output_path +:+ " (1284x2778)"] |}).
Proof.
  intros Hfile Hrender Hout.
  unfold create_appstore_screenshots.create_appstore_screenshot.
  rewrite run_bind. unfold Image_open. rewrite Hfile.
  rewrite run_bind. unfold lift. rewrite Hrender.
  rewrite run_bind. unfold Image_save.
  destruct (fs w !! output_path) as [[| |]|]; done.
Qed.



Lemma create_mockup_run bezel_path screenshot_path output_path w
    bezel_file screenshot_file result :
  fs w !! bezel_path = Some (ImageFile bezel_file) ->
  fs w !! screenshot_path = Some (ImageFile screenshot_file) ->
  create_mockups.composite (PIL.convert PIL.RGBA bezel_file)
                           (PIL.convert PIL.RGBA screenshot_file) = Ok result ->
  fs w !! output_path <> Some Directory ->
  create_mockups.create_mockup bezel_path screenshot_path output_path w =
    (Ok tt,
     {| fs := <[output_path := ImageFile result]> (fs w);
        stdout := stdout w ++
          ["  Screen area: (90, 90) to (1268, 2645)";
           "  Screen size: 1178 x 2555";
           "  Saved: " +:+ output_path] |}).
Proof.
  intros Hbezel Hscreenshot Hresult Hout.
  unfold create_mockups.create_mockup.
  rewrite run_bind. unfold Image_open at 1. rewrite Hbezel.
  rewrite run_bind. unfold Image_open. rewrite Hscreenshot.
  rewrite !run_print_bind. rewrite run_bind. unfold lift. rewrite Hresult.
  rewrite run_bind. unfold Image_save. cbn [fs stdout].
  destruct (fs w !! output_path) as [[| |]|]; try done;
    unfold print; cbn [fs stdout]; by rewrite <- !app_assoc.
Qed.



(** X5. A source that already has the store size is not resampled: the canvas
    shows the source, converted to [RGB], pixel for pixel. *)
Theorem store_sized_source_kept (opened : PIL.Image) :
  PIL.im_size opened = (1284, 2778) ->
  exists canvas,
    create_appstore_screenshots.render opened = Ok canvas /\
    PIL.im_size canvas = (1284, 2778) /\
    forall i j, 0 <= i < 1284 -> 0 <= j < 2778 ->
      PIL.getpixel canvas i j = PIL.getpixel (PIL.convert PIL.RGB opened) i j.
Proof.
  intros Hsize.
  assert (Hdims : create_appstore_screenshots.scaled_dimensions 1284 2778 = Ok (1284, 2778))
    by (vm_compute; reflexivity).
  destruct (render_steps opened 1284 2778 1284 2778 Hsize Hdims)
    as (r & Hr & Hrm & Hrs & Hrender); [lia..|].
  assert (r = PIL.convert PIL.RGB opened) as ->.
  { unfold PIL.resize in Hr. rewrite convert_size, Hsize in Hr.
    case_decide; [by injection Hr|done]. }
  eexists. split; [exact Hrender|]. split; [done|].
  intros i j Hi Hj. rewrite (letterbox_getpixel _ 1284 2778 i j Hrm Hrs).
  change ((create_appstore_screenshots.APPSTORE_WIDTH - 1284) / 2) with 0.
  change ((create_appstore_screenshots.APPSTORE_HEIGHT - 2778) / 2) with 0.
  rewrite !Z.sub_0_r. unfold PIL.in_box.
  replace (0 <=? i) with true by (symmetry; apply Z.leb_le; lia).
  replace (i <? 0 + 1284) with true by (symmetry; apply Z.ltb_lt; lia).
  replace (0 <=? j) with true by (symmetry; apply Z.leb_le; lia).
  replace (j <? 0 + 2778) with true by (symmetry; apply Z.ltb_lt; lia).
  reflexivity.
Qed.

End pipelines_more.

(** ** What a run leaves alone *)

Section frames.
Context `{PIL.Rasterizers}.

Lemma create_mockup_frame bezel_path screenshot_path output_path w r w' :
  create_mockups.create_mockup bezel_path screenshot_path output_path w = (r, w') ->
  wrote_at_most output_path w w'.
Proof.
  unfold create_mockups.create_mockup. rewrite run_bind. unfold Image_open at 1.
  destruct (fs w !! bezel_path) as [[|bezel|]|]; try (intros [= _ <-]; by left).
  rewrite run_bind. unfold Image_open.
  destruct (fs w !! screenshot_path) as [[|screenshot|]|]; try (intros [= _ <-]; by left).
  rewrite !run_print_bind, run_bind. unfold lift.
  destruct (create_mockups.composite _ _) as [result|e]; [|intros [= _ <-]; by left].
  rewrite run_bind. unfold Image_save. cbn [fs stdout].
  destruct (fs w !! output_path) as [[| |]|]; unfold print; intros [= _ <-];
    cbn [fs]; first [by left | right; by eexists].
Qed.

Lemma create_appstore_screenshot_frame screenshot_path output_path w r w' :
  create_appstore_screenshots.create_appstore_screenshot screenshot_path output_path w
    = (r, w') ->
  wrote_at_most output_path w w'.
Proof.
  unfold create_appstore_screenshots.create_appstore_screenshot.
  rewrite run_bind. unfold Image_open.
  destruct (fs w !! screenshot_path) as [[|opened|]|]; try (intros [= _ <-]; by left).
  rewrite run_bind. unfold lift.
  destruct (create_appstore_screenshots.render _) as [canvas|e]; [|intros [= _ <-]; by left].
  rewrite run_bind. unfold Image_save.
  destruct (fs w !! output_path) as [[| |]|]; unfold print; intros [= _ <-];
    cbn [fs]; first [by left | right; by eexists].
Qed.

Lemma mockups_body_frame SCRIPT_DIR name w r w' :
  create_mockups.main_body SCRIPT_DIR name w = (r, w') ->
  wrote_at_most (path_join SCRIPT_DIR (create_mockups.output_name name)) w w'.
Proof.
  unfold create_mockups.main_body. rewrite run_path_exists_bind.
  destruct (bool_decide _); cbn [negb].
  - rewrite run_print_bind. intros Hrun%create_mockup_frame. exact Hrun.
  - unfold print. intros [= _ <-]. by left.
Qed.

Lemma appstore_body_frame SCRIPT_DIR output_dir name w r w' :
  create_appstore_screenshots.main_body SCRIPT_DIR output_dir name w = (r, w') ->
  wrote_at_most (path_join output_dir (create_appstore_screenshots.output_name name)) w w'.
Proof.
  unfold create_appstore_screenshots.main_body. rewrite run_path_exists_bind.
  destruct (bool_decide _); cbn [negb].
  - rewrite run_print_bind. intros Hrun%create_appstore_screenshot_frame. exact Hrun.
  - unfold print. intros [= _ <-]. by left.
Qed.

End frames.

(** A loop whose body changes at most its own output, whatever its outcome. *)
Section loop_frame.
Variable body : string -> M unit.
Variable output : string -> string.
Hypothesis body_frame : forall name w r w',
  body name w = (r, w') -> wrote_at_most (output name) w w'.

Lemma wrote_at_most_other output_path w w' path :
  wrote_at_most output_path w w' -> path <> output_path -> fs w' !! path = fs w !! path.
Proof. intros [->|[im ->]] Hne; [done|]. by rewrite lookup_insert_ne. Qed.

Lemma wrote_at_most_keeps output_path w w' path :
  wrote_at_most output_path w w' -> is_Some (fs w !! path) -> is_Some (fs w' !! path).
Proof.
  intros [->|[im ->]] Hin; [done|].
  destruct (decide (output_path = path)) as [->|Hne].
  - rewrite lookup_insert_eq. by eexists.
  - by rewrite lookup_insert_ne.
Qed.

Lemma loop_frame names : forall w r w',
  for_each names body w = (r, w') ->
  (forall path, (forall n, n ∈ names -> path <> output n) -> fs w' !! path = fs w !! path) /\
  (forall path, is_Some (fs w !! path) -> is_Some (fs w' !! path)).
Proof using body_frame.
  induction names as [|n names IH]; intros w r w' Hrun.
  - injection Hrun as _ <-. done.
  - rewrite run_for_each_cons in Hrun.
    destruct (body n w) as [[[]|e] w1] eqn:Hbody.
    + apply body_frame in Hbody. apply IH in Hrun as [Hother Hkeeps]. split.
      * intros path Hpath. rewrite Hother.
        -- eapply wrote_at_most_other; [done|]. apply Hpath. by apply elem_of_cons; left.
        -- intros m Hm. apply Hpath. by apply elem_of_cons; right.
      * intros path Hin. by eapply Hkeeps, wrote_at_most_keeps.
    + apply body_frame in Hbody. injection Hrun as _ <-. split.
      * intros path Hpath. eapply wrote_at_most_other; [done|].
        apply Hpath. by apply elem_of_cons; left.
      * intros path Hin. by eapply wrote_at_most_keeps.
Qed.

End loop_frame.

Section untouched.
Context `{PIL.Rasterizers}.
Variable SCRIPT_DIR : string.

Lemma mockups_bezel_apart n :
  n ∈ create_mockups.SCREENSHOTS ->
  create_mockups.BEZEL_PATH SCRIPT_DIR
    <> path_join SCRIPT_DIR (create_mockups.output_name n).
Proof.
  intros Hn Heq%path_join_inj. revert n Hn Heq.
  assert (Hall : Forall (fun n => "iPhone 16 - Black - Portrait.png"
                                    <> create_mockups.output_name n)
                        create_mockups.SCREENSHOTS) by compute_done.
  intros n Hn. rewrite Forall_forall in Hall. by apply Hall.
Qed.

(** X18. Whatever the outcome of a run of the mockup script, also when it raises,
    every path other than the five outputs holds what it held before; this
    includes the frame and the screenshots. No path is removed. *)
Theorem mockups_main_changes_only_outputs (w w' : World) (r : result unit) :
  create_mockups.main SCRIPT_DIR w = (r, w') ->
  (forall path,
     (forall name, name ∈ create_mockups.SCREENSHOTS ->
        path <> path_join SCRIPT_DIR (create_mockups.output_name name)) ->
     fs w' !! path = fs w !! path) /\
  fs w' !! create_mockups.BEZEL_PATH SCRIPT_DIR
    = fs w !! create_mockups.BEZEL_PATH SCRIPT_DIR /\
  (forall name, name ∈ create_mockups.SCREENSHOTS ->
     fs w' !! path_join SCRIPT_DIR name = fs w !! path_join SCRIPT_DIR name) /\
  (forall path, is_Some (fs w !! path) -> is_Some (fs w' !! path)).
Proof.
  intros Hrun.
  assert (Hframe :
    (forall path,
       (forall name, name ∈ create_mockups.SCREENSHOTS ->
          path <> path_join SCRIPT_DIR (create_mockups.output_name name)) ->
       fs w' !! path = fs w !! path) /\
    (forall path, is_Some (fs w !! path) -> is_Some (fs w' !! path))).
  { revert Hrun. unfold create_mockups.main.
    rewrite !run_print_bind, run_path_exists_bind. cbn [fs].
    destruct (bool_decide _); cbn [negb].
    - rewrite run_bind.
      destruct (for_each _ _ _) as [[[]|e] w1] eqn:Hloop;
        apply (loop_frame _ (fun n => path_join SCRIPT_DIR (create_mockups.output_name n)))
          in Hloop; try (intros; by eapply mockups_body_frame);
        unfold print; intros [= _ <-]; exact Hloop.
    - unfold print. intros [= _ <-]. done. }
  destruct Hframe as [Hother Hkeeps]. split; [done|]. split; [|split; [|done]].
  - apply Hother. intros name Hin. by apply mockups_bezel_apart.
  - intros name Hin. apply Hother. intros n' Hn'. by apply mockups_paths_apart.
Qed.

(** X9. The same for the store script: every path other than the [appstore]
    directory and the four outputs in it holds what it held before, the
    screenshots included, and no path is removed. *)
Theorem appstore_main_changes_only_outputs (w w' : World) (r : result unit) :
  create_appstore_screenshots.main SCRIPT_DIR w = (r, w') ->
  (forall path,
     path <> path_join SCRIPT_DIR "appstore" ->
     (forall name, name ∈ create_appstore_screenshots.SCREENSHOTS ->
        path <> path_join (path_join SCRIPT_DIR "appstore")
                          (create_appstore_screenshots.output_name name)) ->
     fs w' !! path = fs w !! path) /\
  (forall name, name ∈ create_appstore_screenshots.SCREENSHOTS ->
     fs w' !! path_join SCRIPT_DIR name = fs w !! path_join SCRIPT_DIR name) /\
  (forall path, is_Some (fs w !! path) -> is_Some (fs w' !! path)).
Proof.
  intros Hrun.
  assert (Hframe :
    (forall path,
       path <> path_join SCRIPT_DIR "appstore" ->
       (forall name, name ∈ create_appstore_screenshots.SCREENSHOTS ->
          path <> path_join (path_join SCRIPT_DIR "appstore")
                            (create_appstore_screenshots.output_name name)) ->
       fs w' !! path = fs w !! path) /\
    (forall path, is_Some (fs w !! path) -> is_Some (fs w' !! path))).
  { revert Hrun. unfold create_appstore_screenshots.main.
    rewrite !run_print_bind, run_bind.
    destruct (makedirs _ _) as [[[]|e] w0] eqn:Hdir.
    - assert (Hw0 : (forall path, path <> path_join SCRIPT_DIR "appstore" ->
                       fs w0 !! path = fs w !! path) /\
                    (forall path, is_Some (fs w !! path) -> is_Some (fs w0 !! path))).
      { unfold makedirs in Hdir. cbn [fs stdout] in Hdir.
        destruct (fs w !! path_join SCRIPT_DIR "appstore") as [[| |]|] eqn:Hd;
          try done; injection Hdir as <-; cbn [fs]; [done|]. split.
        - intros path Hne. by rewrite lookup_insert_ne.
        - intros path Hin. destruct (decide (path_join SCRIPT_DIR "appstore" = path))
            as [<-|Hne]; [by rewrite Hd in Hin; destruct Hin|by rewrite lookup_insert_ne]. }
      destruct Hw0 as [Hw0 Hk0]. rewrite run_bind.
      destruct (for_each _ _ _) as [[[]|e] w1] eqn:Hloop;
        apply (loop_frame _ (fun n => path_join (path_join SCRIPT_DIR "appstore")
                                        (create_appstore_screenshots.output_name n)))
          in Hloop; try (intros; by eapply appstore_body_frame);
        unfold print; intros [= _ <-]; cbn [fs]; destruct Hloop as [Hother Hkeeps];
        (split; [intros path Hne Hpath; rewrite Hother by done; by apply Hw0
                |intros path Hin; by apply Hkeeps, Hk0]).
    - intros [= _ <-]. unfold makedirs in Hdir. cbn [fs stdout] in Hdir.
      destruct (fs w !! path_join SCRIPT_DIR "appstore") as [[| |]|];
        try done; by injection Hdir as _ <-. }
  destruct Hframe as [Hother Hkeeps]. split; [done|]. split; [|done].
  intros name Hin. apply Hother.
  - by apply appstore_dir_apart.
  - intros n' Hn'. by apply appstore_paths_apart.
Qed.


End untouched.

(** ** When the runners complete *)

Section completes.
Context `{PIL.Rasterizers}.
Variable SCRIPT_DIR : string.



Lemma path_join_below dir name : path_join dir name <> dir.
Proof.
  unfold path_join. intros Heq.
  assert (Hnil : dir +:+ "" = dir).
  { clear. induction dir as [|x dir IH]; [done|].
    change (String x (dir +:+ "") = String x dir). by rewrite IH. }
  rewrite <- Hnil in Heq at 2. by apply String.app_inj in Heq.
Qed.



End completes.

(** ** Running a script again *)

(** A loop run a second time: a body that reads only [reads name], writes
    only [output name], and repeats itself on the same inputs. *)
Section loop_again.
Variable body : string -> M unit.
Variable reads : string -> list string.
Variable output : string -> string.
Hypothesis body_frame : forall name w r w',
  body name w = (r, w') -> wrote_at_most (output name) w w'.
Hypothesis body_again : forall name w w' v,
  body name w = (Ok tt, w') ->
  (forall path, path ∈ reads name -> fs v !! path = fs w !! path) ->
  fs v !! output name = fs w' !! output name ->
  exists v', body name v = (Ok tt, v') /\ fs v' = fs v.

Lemma loop_steps names : forall w w1,
  for_each names body w = (Ok tt, w1) ->
  NoDup (output <$> names) ->
  (forall n n' path, n ∈ names -> n' ∈ names -> path ∈ reads n -> path <> output n') ->
  forall n, n ∈ names ->
    exists wa wb,
      body n wa = (Ok tt, wb) /\
      (forall path, path ∈ reads n -> fs w1 !! path = fs wa !! path) /\
      fs w1 !! output n = fs wb !! output n.
Proof using body_frame.
  induction names as [|a names IH]; intros w w1 Hrun Hdup Hapart n Hn;
    [by apply elem_of_nil in Hn|].
  pose proof Hrun as Hwhole. rewrite run_for_each_cons in Hrun.
  destruct (body a w) as [[[]|e] wm] eqn:Hbody; [|done].
  apply NoDup_cons in Hdup as [Hfresh Hdup].
  apply elem_of_cons in Hn as [->|Hn].
  - exists w, wm. split; [done|]. split.
    + intros path Hpath. apply (loop_frame _ _ body_frame) in Hwhole as [Hother _].
      apply Hother. intros m Hm. eapply Hapart; [|done..]. by apply elem_of_cons; left.
    + apply (loop_frame _ _ body_frame) in Hrun as [Hother _].
      apply Hother. intros m Hm Heq. apply Hfresh. rewrite Heq.
      by apply list_elem_of_fmap_2.
  - apply (IH wm w1); [done..| |done].
    intros m m' path Hm Hm'. apply Hapart; by apply elem_of_cons; right.
Qed.

Lemma loop_again names : forall w w1,
  for_each names body w = (Ok tt, w1) ->
  NoDup (output <$> names) ->
  (forall n n' path, n ∈ names -> n' ∈ names -> path ∈ reads n -> path <> output n') ->
  forall v, fs v = fs w1 ->
    exists v', for_each names body v = (Ok tt, v') /\ fs v' = fs w1.
Proof using body_frame body_again.
  intros w w1 Hrun Hdup Hapart.
  pose proof (loop_steps names w w1 Hrun Hdup Hapart) as Hsteps. clear Hrun Hdup Hapart.
  induction names as [|a names IH]; intros v Hv; [by exists v|].
  rewrite run_for_each_cons.
  destruct (Hsteps a) as (wa & wb & Hbody & Hreads & Hwritten);
    [by apply elem_of_cons; left|].
  destruct (body_again a wa wb v Hbody) as (v1 & -> & Hv1).
  - intros path Hpath. rewrite Hv. by apply Hreads.
  - by rewrite Hv.
  - apply IH; [|congruence]. intros n Hn. apply Hsteps. by apply elem_of_cons; right.
Qed.

End loop_again.

Section rerun.
Context `{PIL.Rasterizers}.
Variable SCRIPT_DIR : string.

Lemma saved_screenshot_render screenshot_path output_path w w' :
  create_appstore_screenshots.create_appstore_screenshot screenshot_path output_path w
    = (Ok tt, w') ->
  exists opened canvas,
    fs w !! screenshot_path = Some (ImageFile opened) /\
    create_appstore_screenshots.render opened = Ok canvas /\
    fs w' !! output_path = Some (ImageFile canvas).
Proof.
  unfold create_appstore_screenshots.create_appstore_screenshot. intros Hrun.
  apply run_image_open_bind in Hrun as (opened & Hopened & Hrun).
  apply run_lift_bind in Hrun as (canvas & Hcanvas & Hrun).
  apply run_image_save_bind in Hrun.
  unfold print in Hrun. injection Hrun as <-. cbn [fs].
  exists opened, canvas. by rewrite lookup_insert_eq.
Qed.

Lemma appstore_body_again output_dir name w w' v :
  create_appstore_screenshots.main_body SCRIPT_DIR output_dir name w = (Ok tt, w') ->
  (forall path, path ∈ [path_join SCRIPT_DIR name] -> fs v !! path = fs w !! path) ->
  fs v !! path_join output_dir (create_appstore_screenshots.output_name name)
    = fs w' !! path_join output_dir (create_appstore_screenshots.output_name name) ->
  exists v', create_appstore_screenshots.main_body SCRIPT_DIR output_dir name v = (Ok tt, v')
             /\ fs v' = fs v.
Proof.
  intros Hrun Hreads Hwritten.
  assert (Hin : fs v !! path_join SCRIPT_DIR name = fs w !! path_join SCRIPT_DIR name)
    by (apply Hreads; by apply list_elem_of_singleton).
  revert Hrun. unfold create_appstore_screenshots.main_body.
  rewrite !run_path_exists_bind, Hin.
  destruct (bool_decide _); cbn [negb]; [|by eexists].
  rewrite !run_print_bind. intros Hrun%saved_screenshot_render.
  destruct Hrun as (opened & canvas & Hopened & Hrender & Hsaved). cbn [fs] in Hopened.
  rewrite <- Hin in Hopened. rewrite Hsaved in Hwritten.
  erewrite create_appstore_screenshot_run; [|exact Hopened|exact Hrender|].
  - eexists. split; [done|]. cbn [fs]. by apply insert_id.
  - cbn [fs]. by rewrite Hwritten.
Qed.

Lemma mockups_body_again name w w' v :
  create_mockups.main_body SCRIPT_DIR name w = (Ok tt, w') ->
  (forall path, path ∈ [path_join SCRIPT_DIR name; create_mockups.BEZEL_PATH SCRIPT_DIR] ->
     fs v !! path = fs w !! path) ->
  fs v !! path_join SCRIPT_DIR (create_mockups.output_name name)
    = fs w' !! path_join SCRIPT_DIR (create_mockups.output_name name) ->
  exists v', create_mockups.main_body SCRIPT_DIR name v = (Ok tt, v') /\ fs v' = fs v.
Proof.
  intros Hrun Hreads Hwritten.
  assert (Hin : fs v !! path_join SCRIPT_DIR name = fs w !! path_join SCRIPT_DIR name)
    by (apply Hreads; set_solver).
  assert (Hbz : fs v !! create_mockups.BEZEL_PATH SCRIPT_DIR
                = fs w !! create_mockups.BEZEL_PATH SCRIPT_DIR)
    by (apply Hreads; set_solver).
  revert Hrun. unfold create_mockups.main_body.
  rewrite !run_path_exists_bind, Hin.
  destruct (bool_decide _); cbn [negb]; [|by eexists].
  rewrite !run_print_bind. intros Hrun%saved_mockup_composite.
  destruct Hrun as (bezel_file & screenshot_file & result & Hbezel & Hscreenshot
                    & Hresult & Hsaved & _).
  cbn [fs] in Hbezel, Hscreenshot. rewrite <- Hin in Hscreenshot. rewrite <- Hbz in Hbezel.
  rewrite Hsaved in Hwritten.
  erewrite create_mockup_run; [|exact Hbezel|exact Hscreenshot|exact Hresult|].
  - eexists. split; [done|]. cbn [fs]. by apply insert_id.
  - cbn [fs]. by rewrite Hwritten.
Qed.

Lemma mockups_outputs_distinct :
  NoDup ((fun n => path_join SCRIPT_DIR (create_mockups.output_name n))
           <$> create_mockups.SCREENSHOTS).
Proof.
  rewrite (list_fmap_compose create_mockups.output_name (path_join SCRIPT_DIR)).
  apply NoDup_fmap_2; [intros a b; apply path_join_inj|compute_done].
Qed.

Lemma appstore_outputs_distinct output_dir :
  NoDup ((fun n => path_join output_dir (create_appstore_screenshots.output_name n))
           <$> create_appstore_screenshots.SCREENSHOTS).
Proof.
  rewrite (list_fmap_compose create_appstore_screenshots.output_name (path_join output_dir)).
  apply NoDup_fmap_2; [intros a b; apply path_join_inj|compute_done].
Qed.

Lemma mockups_reads_apart n n' path :
  n ∈ create_mockups.SCREENSHOTS -> n' ∈ create_mockups.SCREENSHOTS ->
  path ∈ [path_join SCRIPT_DIR n; create_mockups.BEZEL_PATH SCRIPT_DIR] ->
  path <> path_join SCRIPT_DIR (create_mockups.output_name n').
Proof.
  intros Hn Hn' Hpath.
  apply elem_of_cons in Hpath as [->|Hpath%list_elem_of_singleton].
  - by apply mockups_paths_apart.
  - subst path. by apply mockups_bezel_apart.
Qed.

Lemma appstore_reads_apart n n' path :
  n ∈ create_appstore_screenshots.SCREENSHOTS ->
  n' ∈ create_appstore_screenshots.SCREENSHOTS ->
  path ∈ [path_join SCRIPT_DIR n] ->
  path <> path_join (path_join SCRIPT_DIR "appstore")
                    (create_appstore_screenshots.output_name n').
Proof. intros Hn Hn' ->%list_elem_of_singleton. by apply appstore_paths_apart. Qed.

(** X19. Running the mockup script again after a run that completed changes no
    file: it completes again and every path holds what the first run left. *)
Theorem mockups_rerun_changes_nothing (w w1 : World) :
  create_mockups.main SCRIPT_DIR w = (Ok tt, w1) ->
  exists w2, create_mockups.main SCRIPT_DIR w1 = (Ok tt, w2) /\ fs w2 = fs w1.
Proof.
  unfold create_mockups.main. rewrite !run_print_bind, !run_path_exists_bind. cbn [fs].
  destruct (bool_decide (is_Some (fs w !! _))) eqn:Hfound; cbn [negb].
  - rewrite run_bind. destruct (for_each _ _ _) as [[[]|e] wl] eqn:Hloop; [|done].
    unfold print at 1. intros [= <-]. cbn [fs].
    assert (Hstill : bool_decide (is_Some (fs wl !! create_mockups.BEZEL_PATH SCRIPT_DIR))
                     = true).
    { apply bool_decide_eq_true in Hfound. apply bool_decide_eq_true.
      apply (loop_frame _ (fun n => path_join SCRIPT_DIR (create_mockups.output_name n)))
        in Hloop as [_ Hkeeps]; [by apply Hkeeps|].
      intros. by eapply mockups_body_frame. }
    rewrite Hstill. cbn [negb]. rewrite run_bind.
    match goal with
    | |- context [for_each _ _ ?v] =>
        destruct (loop_again (create_mockups.main_body SCRIPT_DIR)
                    (fun n => [path_join SCRIPT_DIR n; create_mockups.BEZEL_PATH SCRIPT_DIR])
                    (fun n => path_join SCRIPT_DIR (create_mockups.output_name n))
                    ltac:(intros; by eapply mockups_body_frame)
                    ltac:(intros; by eapply mockups_body_again)
                    _ _ _ Hloop mockups_outputs_distinct
                    mockups_reads_apart v eq_refl) as (v' & -> & Hv')
    end.
    by eexists.
  - unfold print at 1. intros [= <-]. cbn [fs]. rewrite Hfound. cbn [negb]. by eexists.
Qed.

(** X10. Running the store script again after a run that completed changes no
    file: it completes again and every path holds what the first run left. *)
Theorem appstore_rerun_changes_nothing (w w1 : World) :
  create_appstore_screenshots.main SCRIPT_DIR w = (Ok tt, w1) ->
  exists w2, create_appstore_screenshots.main SCRIPT_DIR w1 = (Ok tt, w2) /\ fs w2 = fs w1.
Proof.
  unfold create_appstore_screenshots.main. rewrite !run_print_bind, !run_bind.
  destruct (makedirs _ _) as [[[]|e] w0] eqn:Hdir; [|done].
  assert (Hw0 : fs w0 !! path_join SCRIPT_DIR "appstore" = Some Directory).
  { unfold makedirs in Hdir. cbn [fs stdout] in Hdir.
    destruct (fs w !! path_join SCRIPT_DIR "appstore") as [[| |]|] eqn:Hd;
      try done; injection Hdir as <-; cbn [fs]; [done|by rewrite lookup_insert_eq]. }
  rewrite run_bind. destruct (for_each _ _ _) as [[[]|e] wl] eqn:Hloop; [|done].
  unfold print at 1. intros [= <-]. cbn [fs stdout].
  assert (Hstill : fs wl !! path_join SCRIPT_DIR "appstore" = Some Directory).
  { pose proof Hloop as Hl.
    apply (loop_frame _ (fun n => path_join (path_join SCRIPT_DIR "appstore")
                                    (create_appstore_screenshots.output_name n)))
      in Hl as [Hother _]; [|intros; by eapply appstore_body_frame].
    rewrite Hother; [done|]. intros n Hn Heq. symmetry in Heq.
    by apply path_join_below in Heq. }
  unfold makedirs at 1. cbn [fs stdout]. rewrite Hstill. rewrite run_bind.
  match goal with
  | |- context [for_each _ _ ?v] =>
      destruct (loop_again
                  (create_appstore_screenshots.main_body SCRIPT_DIR
                     (path_join SCRIPT_DIR "appstore"))
                  (fun n => [path_join SCRIPT_DIR n])
                  (fun n => path_join (path_join SCRIPT_DIR "appstore")
                              (create_appstore_screenshots.output_name n))
                  ltac:(intros; by eapply appstore_body_frame)
                  ltac:(intros; by eapply appstore_body_again)
                  _ _ _ Hloop (appstore_outputs_distinct _)
                  appstore_reads_apart v eq_refl) as (v' & -> & Hv')
  end.
  by eexists.
Qed.

End rerun.

(** ** The pixels of a mockup *)

Section mockup_pixels.
Context `{PIL.Rasterizers}.
Import create_mockups.

Lemma byte_alpha_over_clear s : 0 <= s <= 255 -> PIL.SHIFTFORDIV255 (s * 255 + 128) = s.
Proof.
  intros Hs.
  assert (Hall : forallb (fun n => PIL.SHIFTFORDIV255 (Z.of_nat n * 255 + 128) =? Z.of_nat n)
                         (seq 0 256) = true) by (vm_compute; reflexivity).
  rewrite forallb_forall in Hall.
  specialize (Hall (Z.to_nat s)). rewrite Z2Nat.id in Hall by lia.
  apply Z.eqb_eq, Hall, in_seq. lia.
Qed.

(** Over a fully transparent pixel the upper layer is kept as it is, unless
    it is fully transparent itself. *)
Lemma composite_pixel_over_clear dst src :
  PIL.pixel_range src -> PIL.alpha dst = 0 -> PIL.alpha src <> 0 ->
  PIL.composite_pixel dst src = src.
Proof.
  destruct dst as [[[dr dg] db] da], src as [[[sr sg] sb] sa].
  unfold PIL.pixel_range, PIL.byte_range, PIL.alpha. simpl fst; simpl snd.
  intros (Hr & Hg & Hb & Ha) -> Hsa. unfold PIL.composite_pixel.
  destruct (sa =? 0) eqn:Hz; [by apply Z.eqb_eq in Hz|].
  rewrite Z.mul_0_l, Z.add_0_r.
  replace (sa * 255 * 255 * 128 / (sa * 255)) with 32640
    by (apply Z.div_unique_exact; lia).
  change (255 * 128 - 32640) with 0. change (Z.shiftl 128 7) with 16384.
  cbv zeta. rewrite !Z.mul_0_r, !Z.add_0_r.
  rewrite !byte_channel_opaque by done. by rewrite byte_alpha_over_clear.
Qed.

Lemma composite_pixels (bezel_file screenshot : PIL.Image) :
  exists screenshot_resized result,
    PIL.resize screenshot (1178, 2555) = Ok screenshot_resized /\
    composite (PIL.convert PIL.RGBA bezel_file) screenshot = Ok result /\
    forall i j,
      PIL.getpixel result i j =
        PIL.composite_pixel
          (if PIL.in_box 90 90 1178 2555 i j
           then ((PIL.getpixel screenshot_resized (i - 90) (j - 90)).1,
                 if PIL.rounded_rectangle_covers (0, 0) (1178, 2555) 110 (i - 90) (j - 90)
                 then 255 else 0)
           else (0, 0, 0, 0))
          (PIL.getpixel (PIL.convert PIL.RGBA bezel_file) i j).
Proof.
  destruct (stretch_steps screenshot) as (r & Hr & Hrs & Hcanvas).
  destruct (add_rounded_corners_ok r CORNER_RADIUS) as (masked & Hmasked & Hmm & Hms & Hpx).
  exists r. unfold composite. rewrite Hcanvas, Hmasked. cbn [mbind result_bind].
  unfold PIL.alpha_composite. case_decide as Hd.
  - eexists. split; [exact Hr|]. split; [done|]. intros i j.
    cbn [PIL.getpixel PIL.paste PIL.mode PIL.new PIL.im_size].
    rewrite convert_same by done. rewrite Hms, Hrs. cbn [fst snd].
    unfold SCREEN_LEFT, SCREEN_TOP. rewrite Hpx, Hrs.
    replace (PIL.getpixel (PIL.convert PIL.RGBA r) (i - 90) (j - 90)).1
      with (PIL.getpixel r (i - 90) (j - 90)).1
      by (unfold PIL.convert; by case_decide).
    reflexivity.
  - destruct Hd. repeat split; try done. apply convert_mode.
Qed.

(** X14. Outside the screen rectangle the mockup shows the frame alone: the
    pixel of the frame, or the transparent black of the canvas where the frame
    is fully transparent.  The screenshot never shows there. *)
Theorem mockup_outside_screen (bezel_file screenshot : PIL.Image) :
  exists result,
    composite (PIL.convert PIL.RGBA bezel_file) screenshot = Ok result /\
    forall i j,
      PIL.in_box 90 90 1178 2555 i j = false ->
      PIL.pixel_range (PIL.getpixel (PIL.convert PIL.RGBA bezel_file) i j) ->
      PIL.getpixel result i j =
        if PIL.alpha (PIL.getpixel (PIL.convert PIL.RGBA bezel_file) i j) =? 0
        then (0, 0, 0, 0)
        else PIL.getpixel (PIL.convert PIL.RGBA bezel_file) i j.
Proof.
  destruct (composite_pixels bezel_file screenshot) as (r & result & _ & Hresult & Hpx).
  exists result. split; [done|]. intros i j Hbox Hrange. rewrite Hpx, Hbox.
  destruct (_ =? 0) eqn:Hz.
  - apply Z.eqb_eq in Hz. by apply composite_pixel_clear.
  - apply Z.eqb_neq in Hz. by apply composite_pixel_over_clear.
Qed.

(** X15. Inside the screen rectangle, where the mask covers and the frame is
    fully transparent, the mockup shows the stretched screenshot, opaque:
    whatever alpha the screenshot had is replaced by 255.  Where the mask does
    not cover, the frame is kept as outside the rectangle. *)
Theorem mockup_inside_screen (bezel_file screenshot : PIL.Image) :
  exists screenshot_resized result,
    PIL.resize screenshot (1178, 2555) = Ok screenshot_resized /\
    composite (PIL.convert PIL.RGBA bezel_file) screenshot = Ok result /\
    forall i j,
      PIL.in_box 90 90 1178 2555 i j = true ->
      (PIL.rounded_rectangle_covers (0, 0) (1178, 2555) 110 (i - 90) (j - 90) = true ->
       PIL.alpha (PIL.getpixel (PIL.convert PIL.RGBA bezel_file) i j) = 0 ->
       PIL.getpixel result i j
         = ((PIL.getpixel screenshot_resized (i - 90) (j - 90)).1, 255)) /\
      (PIL.rounded_rectangle_covers (0, 0) (1178, 2555) 110 (i - 90) (j - 90) = false ->
       PIL.pixel_range (PIL.getpixel (PIL.convert PIL.RGBA bezel_file) i j) ->
       PIL.alpha (PIL.getpixel (PIL.convert PIL.RGBA bezel_file) i j) <> 0 ->
       PIL.getpixel result i j = PIL.getpixel (PIL.convert PIL.RGBA bezel_file) i j).
Proof.
  destruct (composite_pixels bezel_file screenshot) as (r & result & Hr & Hresult & Hpx).
  exists r, result. split; [done|]. split; [done|]. intros i j Hbox. rewrite Hpx, Hbox.
  split.
  - intros -> Hclear. by apply composite_pixel_clear.
  - intros -> Hrange Hshown. by apply composite_pixel_over_clear.
Qed.

End mockup_pixels.

(** ** Output names *)

Section names.

Lemma rfind_app c (a b : string) :
  rfind c (a +:+ b) =
    match rfind c b with
    | Some k => Some (String.length a + k)%nat
    | None => rfind c a
    end.
Proof.
  induction a as [|x a IH].
  - change ("" +:+ b) with b. by destruct (rfind c b).
  - change (String x a +:+ b) with (String x (a +:+ b)). cbn [rfind String.length].
    rewrite IH. by destruct (rfind c b).
Qed.

Lemma substring_whole (s : string) : substring 0 (String.length s) s = s.
Proof. induction s as [|x s IH]; [done|]. cbn [substring String.length]. by rewrite IH. Qed.

Lemma substring_prefix (a b : string) : substring 0 (String.length a) (a +:+ b) = a.
Proof.
  induction a as [|x a IH].
  - change ("" +:+ b) with b. by destruct b.
  - change (String x a +:+ b) with (String x (a +:+ b)). cbn [substring String.length].
    by rewrite IH.
Qed.

Lemma substring_suffix (a b : string) :
  substring (String.length a) (String.length (a +:+ b) - String.length a) (a +:+ b) = b.
Proof.
  induction a as [|x a IH].
  - change ("" +:+ b) with b. cbn [String.length]. rewrite Nat.sub_0_r.
    apply substring_whole.
  - change (String x a +:+ b) with (String x (a +:+ b)). exact IH.
Qed.

(** [os.path.splitext] on a file name with an extension. *)
Lemma splitext_extension (base ext : string) :
  rfind "/" base = None -> all_dots base = false ->
  rfind "." ext = None -> rfind "/" ext = None ->
  splitext (base +:+ "." +:+ ext) = (base, "." +:+ ext).
Proof.
  intros Hbase Hdots Hext Hsep. unfold splitext.
  rewrite !rfind_app.
  change ("." +:+ ext) with (String "." ext). cbn [rfind]. rewrite Hext, Hsep, Hbase.
  change (Ascii.eqb "." "/") with false. change (Ascii.eqb "." ".") with true. cbv iota.
  rewrite Nat.add_0_r, Nat.sub_0_r.
  replace (String.length base <? 0)%nat with false by (symmetry; apply Nat.ltb_ge; lia).
  rewrite substring_prefix, Hdots. cbn [orb]. f_equal. apply substring_suffix.
Qed.

(** X20. The output of an entry [base.ext] of a manifest is named after [base]:
    the extension, whatever its case, is replaced by the suffix of the script
    and [.png]. *)
Theorem output_name_replaces_extension (base ext : string) :
  rfind "/" base = None -> all_dots base = false ->
  rfind "." ext = None -> rfind "/" ext = None ->
  create_appstore_screenshots.output_name (base +:+ "." +:+ ext) = base +:+ "-appstore.png" /\
  create_mockups.output_name (base +:+ "." +:+ ext) = base +:+ "-mockup.png".
Proof.
  intros Hbase Hdots Hext Hsep.
  unfold create_appstore_screenshots.output_name, create_mockups.output_name.
  by rewrite splitext_extension.
Qed.

End names.

(** ** Runs on concrete inputs *)

Section runs.
Import create_appstore_screenshots.

Lemma square_source_example_witness :
  let opened := PIL.new PIL.RGBA (1000, 1000) (10, 20, 30, 40) in
  exists scale hs img_resized canvas,
    int_truediv APPSTORE_WIDTH 1000 = Ok scale /\
    ((1284 # 1000) - (1 # 9007199254740992) <= SF2Q scale)%Q /\
    (SF2Q scale <= (1284 # 1000) + (1 # 9007199254740992))%Q /\
    int_mul_float 1000 scale = Ok hs /\ int_of_float hs = Ok 1284 /\
    (1284 >? APPSTORE_HEIGHT) = false /\
    scaled_dimensions 1000 1000 = Ok (1284, 1284) /\
    PIL.resize (H := sample_rasterizers) (PIL.convert PIL.RGB opened) (1284, 1284)
      = Ok img_resized /\
    render (H := sample_rasterizers) opened = Ok canvas /\
    PIL.im_size canvas = (1284, 2778) /\
    (APPSTORE_WIDTH - 1284) / 2 = 0 /\ (APPSTORE_HEIGHT - 1284) / 2 = 747 /\
    2778 - (747 + 1284) = 747 /\
    forall i j,
      PIL.getpixel canvas i j =
        if PIL.in_box 0 747 1284 1284 i j
        then PIL.getpixel img_resized i (j - 747)
        else black.
Proof.
  apply (square_source_example (H := sample_rasterizers)
           (PIL.new PIL.RGBA (1000, 1000) (10, 20, 30, 40))).
  reflexivity.
Defined.

Lemma saved_screenshot_opaque_witness :
  let run := create_appstore_screenshot (H := sample_rasterizers)
               "/site/Workout.PNG" "/site/appstore/Workout-appstore.png" sample_world in
  run.1 = Ok tt /\
  exists opened new_w new_h img_resized canvas,
    fs sample_world !! "/site/Workout.PNG" = Some (ImageFile opened) /\
    fs run.2 !! "/site/appstore/Workout-appstore.png" = Some (ImageFile canvas) /\
    PIL.mode canvas = PIL.RGB /\
    PIL.im_size canvas = (1284, 2778) /\
    PIL.mode (PIL.convert PIL.RGB opened) = PIL.RGB /\
    (PIL.mode opened = PIL.RGBA -> forall i j,
       PIL.getpixel (PIL.convert PIL.RGB opened) i j
         = ((PIL.getpixel opened i j).1, 255)) /\
    PIL.resize (H := sample_rasterizers) (PIL.convert PIL.RGB opened) (new_w, new_h)
      = Ok img_resized /\
    PIL.mode img_resized = PIL.RGB /\
    canvas = letterbox img_resized new_w new_h /\
    forall i j,
      PIL.in_box ((APPSTORE_WIDTH - new_w) / 2) ((APPSTORE_HEIGHT - new_h) / 2)
                 new_w new_h i j = false ->
      PIL.getpixel canvas i j = (0, 0, 0, 255).
Proof.
  intros run. split; [vm_compute; reflexivity|].
  apply (saved_screenshot_opaque (H := sample_rasterizers)
           "/site/Workout.PNG" "/site/appstore/Workout-appstore.png" sample_world run.2).
  vm_compute. reflexivity.
Defined.

Lemma mockups_main_without_bezel_witness :
  fs sample_world !! create_mockups.BEZEL_PATH "/site" = None /\
  create_mockups.main (H := sample_rasterizers) "/site" sample_world =
    (Ok tt,
     {| fs := fs sample_world;
        stdout := stdout sample_world ++
          ["Creating iPhone mockups...";
           "Bezel: " +:+ create_mockups.BEZEL_PATH "/site";
           "Error: Bezel not found at " +:+ create_mockups.BEZEL_PATH "/site"] |}).
Proof.
  split; [vm_compute; reflexivity|].
  apply (mockups_main_without_bezel (H := sample_rasterizers) "/site" sample_world).
  vm_compute. reflexivity.
Defined.

Lemma missing_source_skipped_witness :
  let name := "PreWorkout.PNG" in
  let rest := ["Workout.PNG"] in
  fs sample_world !! path_join "/site" name = None /\
  fs (skipped name sample_world) = fs sample_world /\
  stdout (skipped name sample_world)
    = stdout sample_world ++ ["Skipping " +:+ name +:+ " - not found"] /\
  (forall output_dir,
     create_appstore_screenshots.main_body (H := sample_rasterizers)
         "/site" output_dir name sample_world
       = (Ok tt, skipped name sample_world) /\
     for_each (name :: rest)
         (create_appstore_screenshots.main_body (H := sample_rasterizers) "/site" output_dir)
         sample_world
       = for_each rest
           (create_appstore_screenshots.main_body (H := sample_rasterizers) "/site" output_dir)
           (skipped name sample_world)) /\
  create_mockups.main_body (H := sample_rasterizers) "/site" name sample_world
    = (Ok tt, skipped name sample_world) /\
  for_each (name :: rest) (create_mockups.main_body (H := sample_rasterizers) "/site")
      sample_world
    = for_each rest (create_mockups.main_body (H := sample_rasterizers) "/site")
        (skipped name sample_world).
Proof.
  intros name rest. split; [vm_compute; reflexivity|].
  apply (missing_source_skipped (H := sample_rasterizers) "/site" name rest sample_world).
  vm_compute. reflexivity.
Defined.

(** The names that the two scripts derive from their manifests. *)
Example appstore_output_names :
  map output_name SCREENSHOTS =
    ["PreWorkout-appstore.png"; "Workout-appstore.png";
     "Activity-appstore.png"; "Bubble-appstore.png"].
Proof. reflexivity. Qed.

Example mockups_output_names :
  map create_mockups.output_name create_mockups.SCREENSHOTS =
    ["PreWorkout-mockup.png"; "Workout-mockup.png"; "Activity-mockup.png";
     "Bubble-mockup.png"; "Splash-mockup.png"].
Proof. reflexivity. Qed.

(** The scaler on a source of the target's size, on a tall source (fallback
    branch) and on a source without width. *)
Example scaled_dimensions_same_size : scaled_dimensions 1284 2778 = Ok (1284, 2778).
Proof. vm_compute. reflexivity. Qed.

Example scaled_dimensions_tall : scaled_dimensions 1000 3000 = Ok (926, 2778).
Proof. vm_compute. reflexivity. Qed.

Example scaled_dimensions_no_width : scaled_dimensions 0 100 = Raise ZeroDivisionError.
Proof. reflexivity. Qed.

(** A run of the store script in a world that holds one of the four
    screenshots. *)
Example appstore_main_run :
  let run := main (H := sample_rasterizers) "/site" sample_world in
  run.1 = Ok tt /\
  stdout run.2 =
    ["Creating App Store screenshots..."; "Target size: 1284 x 2778";
     "Skipping PreWorkout.PNG - not found";
     newline +:+ "Processing: Workout.PNG";
     "  Saved: /site/appstore/Workout-appstore.png (1284x2778)";
     "Skipping Activity.PNG - not found";
     "Skipping Bubble.PNG - not found";
     newline +:+ "Done! Screenshots saved to: /site/appstore"] /\
  is_image run.2 "/site/appstore/Workout-appstore.png" /\
  fs run.2 !! "/site/appstore/Bubble-appstore.png" = None.
Proof.
  intros run. split; [vm_compute; reflexivity|]. split; [vm_compute; reflexivity|].
  split; [|vm_compute; reflexivity].
  eexists. vm_compute. reflexivity.
Qed.

(** A run of the mockup script with the frame and one of the five
    screenshots. *)
Example mockups_main_run :
  let run := create_mockups.main (H := sample_rasterizers) "/site" sample_world_with_bezel in
  run.1 = Ok tt /\
  stdout run.2 =
    ["Creating iPhone mockups...";
     "Bezel: /site/iPhone 16 - Black - Portrait.png";
     "Skipping PreWorkout.PNG - not found";
     newline +:+ "Processing: Workout.PNG";
     "  Screen area: (90, 90) to (1268, 2645)";
     "  Screen size: 1178 x 2555";
     "  Saved: /site/Workout-mockup.png";
     "Skipping Activity.PNG - not found";
     "Skipping Bubble.PNG - not found";
     "Skipping Splash.PNG - not found";
     newline +:+ "Done!"] /\
  is_image run.2 "/site/Workout-mockup.png" /\
  fs run.2 !! "/site/Bubble-mockup.png" = None.
Proof.
  intros run. split; [vm_compute; reflexivity|]. split; [vm_compute; reflexivity|].
  split; [|vm_compute; reflexivity].
  eexists. vm_compute. reflexivity.
Qed.

(** The further properties on concrete inputs. *)
Lemma scaled_dimensions_accurate_witness :
  exists new_w new_h,
    scaled_dimensions 1170 2532 = Ok (new_w, new_h) /\
    ((new_w = 1284 /\
      new_h * 1170 * 10 ^ 15 <= 1284 * 2532 * (10 ^ 15 + 1) /\
      1284 * 2532 * (10 ^ 15 - 1) < (new_h + 1) * 1170 * 10 ^ 15) \/
     (new_h = 2778 /\
      new_w * 2532 * 10 ^ 15 <= 2778 * 1170 * (10 ^ 15 + 1) /\
      2778 * 1170 * (10 ^ 15 - 1) < (new_w + 1) * 2532 * 10 ^ 15)).
Proof. apply (scaled_dimensions_accurate 1170 2532); lia. Defined.

Lemma source_not_taller_fills_width_witness :
  1284 * 1000 <= 2778 * 1000 /\
  exists new_h, scaled_dimensions 1000 1000 = Ok (1284, new_h) /\ 0 <= new_h <= 2778.
Proof. split; [lia|]. apply (source_not_taller_fills_width 1000 1000); lia. Defined.

Lemma source_taller_fills_height_witness :
  2780 * 1000 <= 1284 * 3000 /\
  exists new_w, scaled_dimensions 1000 3000 = Ok (new_w, 2778) /\ 0 <= new_w < 1284.
Proof. split; [lia|]. apply (source_taller_fills_height 1000 3000); lia. Defined.

Lemma very_wide_source_raises_witness :
  let opened := PIL.new PIL.RGB (2000, 1) (9, 9, 9, 255) in
  scaled_dimensions 2000 1 = Ok (1284, 0) /\
  render (H := sample_rasterizers) opened = Raise ValueError.
Proof.
  apply (very_wide_source_raises (H := sample_rasterizers)
           (PIL.new PIL.RGB (2000, 1) (9, 9, 9, 255)) 2000 1); [reflexivity|lia..].
Defined.

Lemma store_sized_source_kept_witness :
  let opened := PIL.new PIL.RGBA (1284, 2778) (10, 20, 30, 40) in
  exists canvas,
    render (H := sample_rasterizers) opened = Ok canvas /\
    PIL.im_size canvas = (1284, 2778) /\
    forall i j, 0 <= i < 1284 -> 0 <= j < 2778 ->
      PIL.getpixel canvas i j = PIL.getpixel (PIL.convert PIL.RGB opened) i j.
Proof.
  apply (store_sized_source_kept (H := sample_rasterizers)
           (PIL.new PIL.RGBA (1284, 2778) (10, 20, 30, 40))).
  reflexivity.
Defined.



Lemma appstore_completed_run_witness :
  let run := main (H := sample_rasterizers) "/site" sample_world in
  "Skipping " +:+ "PreWorkout.PNG" +:+ " - not found" ∈ stdout run.2 /\
  is_image run.2 (path_join (path_join "/site" "appstore") (output_name "Workout.PNG")).
Proof.
  intros run.
  assert (Hrun : main (H := sample_rasterizers) "/site" sample_world = (Ok tt, run.2))
    by (vm_compute; reflexivity).
  split.
  - apply (appstore_completed_run (H := sample_rasterizers) "/site" sample_world run.2 Hrun
             "PreWorkout.PNG"); [|vm_compute; reflexivity].
    apply elem_of_cons. left. reflexivity.
  - apply (appstore_completed_run (H := sample_rasterizers) "/site" sample_world run.2 Hrun
             "Workout.PNG"); [|eexists; vm_compute; reflexivity].
    apply elem_of_cons. right. apply elem_of_cons. left. reflexivity.
Defined.

Lemma appstore_main_changes_only_outputs_witness :
  let run := main (H := sample_rasterizers) "/site" sample_world_undecodable in
  run.1 = Raise UnidentifiedImageError /\
  (forall path,
     path <> path_join "/site" "appstore" ->
     (forall name, name ∈ SCREENSHOTS ->
        path <> path_join (path_join "/site" "appstore") (output_name name)) ->
     fs run.2 !! path = fs sample_world_undecodable !! path) /\
  (forall name, name ∈ SCREENSHOTS ->
     fs run.2 !! path_join "/site" name = fs sample_world_undecodable !! path_join "/site" name) /\
  (forall path, is_Some (fs sample_world_undecodable !! path) -> is_Some (fs run.2 !! path)).
Proof.
  intros run. split; [vm_compute; reflexivity|].
  apply (appstore_main_changes_only_outputs (H := sample_rasterizers)
           "/site" sample_world_undecodable run.2 run.1).
  vm_compute. reflexivity.
Defined.

Lemma appstore_rerun_changes_nothing_witness :
  let run := main (H := sample_rasterizers) "/site" sample_world in
  run.1 = Ok tt /\
  exists w2, main (H := sample_rasterizers) "/site" run.2 = (Ok tt, w2) /\ fs w2 = fs run.2.
Proof.
  intros run. split; [vm_compute; reflexivity|].
  apply (appstore_rerun_changes_nothing (H := sample_rasterizers) "/site" sample_world run.2).
  vm_compute. reflexivity.
Defined.




Lemma mockups_completed_run_witness :
  let run := create_mockups.main (H := sample_rasterizers) "/site" sample_world_with_bezel in
  "Skipping " +:+ "PreWorkout.PNG" +:+ " - not found" ∈ stdout run.2 /\
  is_image run.2 (path_join "/site" (create_mockups.output_name "Workout.PNG")).
Proof.
  intros run.
  assert (Hrun : create_mockups.main (H := sample_rasterizers) "/site" sample_world_with_bezel
                 = (Ok tt, run.2)) by (vm_compute; reflexivity).
  assert (Hbezel : is_Some (fs sample_world_with_bezel !! create_mockups.BEZEL_PATH "/site"))
    by (eexists; vm_compute; reflexivity).
  split.
  - apply (mockups_completed_run (H := sample_rasterizers) "/site" sample_world_with_bezel
             run.2 Hrun Hbezel "PreWorkout.PNG"); [|vm_compute; reflexivity].
    apply elem_of_cons. left. reflexivity.
  - apply (mockups_completed_run (H := sample_rasterizers) "/site" sample_world_with_bezel
             run.2 Hrun Hbezel "Workout.PNG"); [|eexists; vm_compute; reflexivity].
    apply elem_of_cons. right. apply elem_of_cons. left. reflexivity.
Defined.

Lemma mockups_main_changes_only_outputs_witness :
  let run := create_mockups.main (H := sample_rasterizers) "/site" sample_world_undecodable in
  run.1 = Raise UnidentifiedImageError /\
  (forall path,
     (forall name, name ∈ create_mockups.SCREENSHOTS ->
        path <> path_join "/site" (create_mockups.output_name name)) ->
     fs run.2 !! path = fs sample_world_undecodable !! path) /\
  fs run.2 !! create_mockups.BEZEL_PATH "/site"
    = fs sample_world_undecodable !! create_mockups.BEZEL_PATH "/site" /\
  (forall name, name ∈ create_mockups.SCREENSHOTS ->
     fs run.2 !! path_join "/site" name = fs sample_world_undecodable !! path_join "/site" name) /\
  (forall path, is_Some (fs sample_world_undecodable !! path) -> is_Some (fs run.2 !! path)).
Proof.
  intros run. split; [vm_compute; reflexivity|].
  apply (mockups_main_changes_only_outputs (H := sample_rasterizers)
           "/site" sample_world_undecodable run.2 run.1).
  vm_compute. reflexivity.
Defined.

Lemma mockups_rerun_changes_nothing_witness :
  let run := create_mockups.main (H := sample_rasterizers) "/site" sample_world_with_bezel in
  run.1 = Ok tt /\
  exists w2, create_mockups.main (H := sample_rasterizers) "/site" run.2 = (Ok tt, w2) /\
             fs w2 = fs run.2.
Proof.
  intros run. split; [vm_compute; reflexivity|].
  apply (mockups_rerun_changes_nothing (H := sample_rasterizers)
           "/site" sample_world_with_bezel run.2).
  vm_compute. reflexivity.
Defined.

Lemma output_name_replaces_extension_witness :
  output_name ("Workout" +:+ "." +:+ "PNG") = "Workout" +:+ "-appstore.png" /\
  create_mockups.output_name ("Workout" +:+ "." +:+ "PNG") = "Workout" +:+ "-mockup.png".
Proof. apply (output_name_replaces_extension "Workout" "PNG"); reflexivity. Defined.

End runs.
